(** * Yt-Discord-Verifier: the copy-and-continue form scripts

    A shallow embedding of the two client scripts of the repository,
    [src/Id.js] and its sibling variant [src/unnamed/part_000], together
    with the fragment of the JavaScript and DOM semantics they rely on:
    strings as sequences of UTF-16 code units, abrupt completions
    (exceptions), [String.prototype.includes], [encodeURIComponent], the
    [+] operator on a possibly-null left operand, and event handlers as
    state transformers over the DOM properties the scripts read and write. *)

From Stdlib Require Import ZArith List String Ascii Bool Lia.
Import ListNotations.
Open Scope Z_scope.

(* ------------------------------------------------------------------ *)
(** ** JavaScript strings and values *)

(** A JavaScript string is a finite sequence of 16-bit code units. *)
Definition code_unit : Type := Z.
Definition jsstring : Type := list code_unit.

(** An ASCII string literal of the scripts, as a sequence of code units. *)
Definition lit (s : string) : jsstring :=
  map (fun a => Z.of_N (N_of_ascii a)) (list_ascii_of_string s).

(** The values [TARGET] can hold: [getAttribute] answers a string or [null]. *)
Inductive jsval : Type :=
| JNull
| JString (s : jsstring).

Inductive exn : Type :=
| TypeError
| URIError
| DOMException.

(** The completion of an evaluation: a value, or a thrown exception. *)
Inductive completion (A : Type) : Type :=
| Normal (a : A)
| Throw (e : exn).
Arguments Normal {A} a.
Arguments Throw {A} e.

Definition cbind {A B} (c : completion A) (k : A -> completion B) : completion B :=
  match c with
  | Normal a => k a
  | Throw e => Throw e
  end.

Declare Scope completion_scope.
Delimit Scope completion_scope with completion.
Notation "x <- c ;; k" := (cbind c (fun x => k))
  (at level 61, c at next level, right associativity) : completion_scope.

(** [ToString] of the left operand of [+], then concatenation. *)
Definition js_add (v : jsval) (s : jsstring) : jsstring :=
  match v with
  | JNull => lit "null" ++ s
  | JString t => t ++ s
  end.

(** [s.startsWith(p)] at position 0. *)
Fixpoint starts_with (p s : jsstring) : bool :=
  match p, s with
  | [], _ => true
  | _ :: _, [] => false
  | a :: p', b :: s' => (a =? b) && starts_with p' s'
  end.

(** [String.prototype.includes]: does [p] occur somewhere in [s]? *)
Fixpoint includes (s p : jsstring) : bool :=
  starts_with p s ||
  match s with
  | [] => false
  | _ :: s' => includes s' p
  end.

(** The method call [v.includes(p)]; on [null] the property access throws. *)
Definition js_includes (v : jsval) (p : jsstring) : completion bool :=
  match v with
  | JNull => Throw TypeError
  | JString s => Normal (includes s p)
  end.

(* ------------------------------------------------------------------ *)
(** ** [encodeURIComponent] (ECMA-262, abstract operation Encode) *)

(** The code units left as they are: the ASCII word characters and
    the marks [-.!~*'()]. *)
Definition unescapedSet : jsstring :=
  lit "ABCDEFGHIJKLMNOPQRSTUVWXYZabcdefghijklmnopqrstuvwxyz0123456789_-.!~*'()".

Definition is_unescaped (c : code_unit) : bool :=
  existsb (Z.eqb c) unescapedSet.

Definition is_high_surrogate (c : code_unit) : bool :=
  (0xD800 <=? c) && (c <=? 0xDBFF).

Definition is_low_surrogate (c : code_unit) : bool :=
  (0xDC00 <=? c) && (c <=? 0xDFFF).

(** The code point of a surrogate pair. *)
Definition code_point (hi lo : code_unit) : Z :=
  (hi - 0xD800) * 0x400 + (lo - 0xDC00) + 0x10000.

(** The UTF-8 transformation of a code point. *)
Definition utf8 (cp : Z) : list Z :=
  if cp <? 0x80 then [cp]
  else if cp <? 0x800 then
    [Z.lor 0xC0 (Z.shiftr cp 6); Z.lor 0x80 (Z.land cp 0x3F)]
  else if cp <? 0x10000 then
    [Z.lor 0xE0 (Z.shiftr cp 12);
     Z.lor 0x80 (Z.land (Z.shiftr cp 6) 0x3F);
     Z.lor 0x80 (Z.land cp 0x3F)]
  else
    [Z.lor 0xF0 (Z.shiftr cp 18);
     Z.lor 0x80 (Z.land (Z.shiftr cp 12) 0x3F);
     Z.lor 0x80 (Z.land (Z.shiftr cp 6) 0x3F);
     Z.lor 0x80 (Z.land cp 0x3F)].

Definition hex_digit (d : Z) : code_unit :=
  nth (Z.to_nat d) (lit "0123456789ABCDEF") 48.

(** One octet as [%XX], upper-case and padded to two digits. *)
Definition percent (octet : Z) : jsstring :=
  lit "%" ++ [hex_digit (Z.shiftr octet 4); hex_digit (Z.land octet 15)].

Definition escape (cp : Z) : jsstring :=
  flat_map percent (utf8 cp).

Fixpoint encodeURIComponent (s : jsstring) : completion jsstring :=
  match s with
  | [] => Normal []
  | c :: rest =>
      if is_unescaped c then
        (r <- encodeURIComponent rest ;; Normal (c :: r))%completion
      else if is_high_surrogate c then
        match rest with
        | d :: rest' =>
            if is_low_surrogate d then
              (r <- encodeURIComponent rest' ;;
               Normal (escape (code_point c d) ++ r))%completion
            else Throw URIError
        | [] => Throw URIError
        end
      else if is_low_surrogate c then Throw URIError
      else (r <- encodeURIComponent rest ;; Normal (escape c ++ r))%completion
  end.

(** [String.prototype.isWellFormed]: no unpaired surrogate code unit. *)
Fixpoint isWellFormed (s : jsstring) : bool :=
  match s with
  | [] => true
  | c :: rest =>
      if is_high_surrogate c then
        match rest with
        | d :: rest' => is_low_surrogate d && isWellFormed rest'
        | [] => false
        end
      else negb (is_low_surrogate c) && isWellFormed rest
  end.

(* ------------------------------------------------------------------ *)
(** ** The page: DOM properties and browser calls *)

(** The properties the scripts read and write.  [TARGET] is the script's
    own constant, resolved once when the script initialises;
    [location_href] is the last URL the script assigned to
    [location.href], if any. *)
Record page : Type := mkPage {
  TARGET : jsval;
  didInput_value : jsstring;
  copyBtn_textContent : jsstring;
  contBtn_disabled : bool;
  location_href : option jsstring
}.

(** Calls into the browser that leave no trace in the properties above. *)
Inductive api_call : Type :=
| WriteText (text : jsstring)
| Select
| ExecCopy.

(** How [await navigator.clipboard.writeText(...)] ends. *)
Inductive clip_outcome : Type :=
| Resolved
| Rejected
| Absent.

(** What the browser answers during one run of a handler: the outcome of
    the clipboard write and the boolean [document.execCommand('copy')]
    returns. *)
Record browser : Type := mkBrowser {
  clipboard_write : clip_outcome;
  execCommand_copy : bool
}.

(** A handler threads the page, may throw, and records its browser calls. *)
Definition handler (A : Type) : Type :=
  page -> completion A * page * list api_call.

Definition ret {A} (a : A) : handler A :=
  fun st => (Normal a, st, []).

Definition throw {A} (e : exn) : handler A :=
  fun st => (Throw e, st, []).

Definition bind {A B} (m : handler A) (k : A -> handler B) : handler B :=
  fun st =>
    match m st with
    | (Normal a, st1, c1) =>
        let '(r, st2, c2) := k a st1 in (r, st2, c1 ++ c2)
    | (Throw e, st1, c1) => (Throw e, st1, c1)
    end.

(** [try { body } catch (e) { h e }]: what [body] did before it threw stays. *)
Definition try_catch {A} (body : handler A) (h : exn -> handler A) : handler A :=
  fun st =>
    match body st with
    | (Normal a, st1, c1) => (Normal a, st1, c1)
    | (Throw e, st1, c1) =>
        let '(r, st2, c2) := h e st1 in (r, st2, c1 ++ c2)
    end.

Definition lift {A} (c : completion A) : handler A :=
  fun st => (c, st, []).

Declare Scope handler_scope.
Delimit Scope handler_scope with handler.
Notation "x <- m ;; k" := (bind m (fun x => k))
  (at level 61, m at next level, right associativity) : handler_scope.
Notation "m ;; k" := (bind m (fun _ => k))
  (at level 61, right associativity) : handler_scope.

Definition get_TARGET : handler jsval :=
  fun st => (Normal (TARGET st), st, []).

Definition get_didInput_value : handler jsstring :=
  fun st => (Normal (didInput_value st), st, []).

Definition set_copyBtn_textContent (s : jsstring) : handler unit :=
  fun st =>
    (Normal tt,
     mkPage (TARGET st) (didInput_value st) s
            (contBtn_disabled st) (location_href st),
     []).

Definition set_contBtn_disabled (b : bool) : handler unit :=
  fun st =>
    (Normal tt,
     mkPage (TARGET st) (didInput_value st) (copyBtn_textContent st)
            b (location_href st),
     []).

Definition set_location_href (url : jsstring) : handler unit :=
  fun st =>
    (Normal tt,
     mkPage (TARGET st) (didInput_value st) (copyBtn_textContent st)
            (contBtn_disabled st) (Some url),
     []).

Definition call (c : api_call) : handler unit :=
  fun st => (Normal tt, st, [c]).

(** The synchronous part of [navigator.clipboard.writeText(didInput.value)]:
    the field is read and the write is handed to the browser. *)
Definition issue_writeText : handler unit :=
  (v <- get_didInput_value ;; call (WriteText v))%handler.

(** What [await] does once the promise has settled. *)
Definition settled (o : clip_outcome) : handler unit :=
  match o with
  | Resolved => ret tt
  | Rejected => throw DOMException
  | Absent => throw TypeError
  end.

(** [await navigator.clipboard.writeText(didInput.value)].  Without the
    Clipboard API [navigator.clipboard] is undefined and the member access
    throws before the argument is read. *)
Definition await_writeText (o : clip_outcome) : handler unit :=
  match o with
  | Absent => throw TypeError
  | _ => (issue_writeText ;; settled o)%handler
  end.

(** [didInput.select()]. *)
Definition didInput_select : handler unit := call Select.

(** [document.execCommand('copy')], answering what the browser says. *)
Definition document_execCommand_copy (b : browser) : handler bool :=
  (call ExecCopy ;; ret (execCommand_copy b))%handler.

(** The script element a variant reads its configuration from. *)
Record script_element : Type := mkScript {
  data_target : option jsstring
}.

(** [el.getAttribute('data-target')]: the value, or [null]. *)
Definition getAttribute_data_target (el : script_element) : jsval :=
  match data_target el with
  | Some s => JString s
  | None => JNull
  end.

(** What the document answers while a variant initialises. *)
Record document : Type := mkDocument {
  currentScript : option script_element;
  querySelector_script_id_js : option script_element
}.

(** [a || b] on element references: [a] unless it is [null]. *)
Definition or_else {A} (a b : option A) : option A :=
  match a with
  | Some x => Some x
  | None => b
  end.

(** [v || d] on values: [d] when [v] is falsy ([null] or the empty string). *)
Definition js_or (v d : jsval) : jsval :=
  match v with
  | JNull => d
  | JString [] => d
  | JString (_ :: _) => v
  end.

(* ------------------------------------------------------------------ *)
(** ** Variant [src/Id.js] *)

Module IdJs.

Definition copied : jsstring := lit "Copied!".
Definition copied_fallback : jsstring := lit "Copied (fallback)!".

(** Lines 5-6. *)
Definition resolve_TARGET (doc : document) : jsval :=
  let scriptTag := or_else (currentScript doc) (querySelector_script_id_js doc) in
  match scriptTag with
  | Some el => getAttribute_data_target el
  | None => JString (lit "")
  end.

(** Lines 8-19, with the awaited clipboard write as a parameter. *)
Definition copyBtn_body (b : browser) (awaited : handler unit) : handler unit :=
  (try_catch
     (awaited ;;
      set_copyBtn_textContent copied)
     (fun _ =>
        didInput_select ;;
        _ <- document_execCommand_copy b ;;
        set_copyBtn_textContent copied_fallback) ;;
   set_contBtn_disabled false)%handler.

Definition copyBtn_click (b : browser) : handler unit :=
  copyBtn_body b (await_writeText (clipboard_write b)).

(** Lines 21-24. *)
Definition contBtn_click : handler unit :=
  (target <- get_TARGET ;;
   has_query <- lift (js_includes target (lit "?")) ;;
   let sep := if has_query : bool then lit "&" else lit "?" in
   v <- get_didInput_value ;;
   e <- lift (encodeURIComponent v) ;;
   set_location_href (js_add target sep ++ lit "discord_id=" ++ e))%handler.

End IdJs.

(* ------------------------------------------------------------------ *)
(** ** Variant [src/unnamed/part_000] *)

Module Part000.

Definition copied : jsstring := lit "Copied!".
Definition select_and_copy : jsstring := lit "Select & copy".

(** Line 5: [document.currentScript.getAttribute('data-target') || ""]. *)
Definition resolve_TARGET (doc : document) : completion jsval :=
  match currentScript doc with
  | None => Throw TypeError
  | Some el => Normal (js_or (getAttribute_data_target el) (JString (lit "")))
  end.

(** Lines 7-17, with the awaited clipboard write as a parameter. *)
Definition copyBtn_body (awaited : handler unit) : handler unit :=
  (try_catch
     (awaited ;;
      set_copyBtn_textContent copied ;;
      set_contBtn_disabled false)
     (fun _ =>
        didInput_select ;;
        set_copyBtn_textContent select_and_copy ;;
        set_contBtn_disabled false))%handler.

Definition copyBtn_click (b : browser) : handler unit :=
  copyBtn_body (await_writeText (clipboard_write b)).

(** Lines 19-22. *)
Definition contBtn_click : handler unit :=
  (target <- get_TARGET ;;
   has_query <- lift (js_includes target (lit "?")) ;;
   let sep := if has_query : bool then lit "&" else lit "?" in
   v <- get_didInput_value ;;
   e <- lift (encodeURIComponent v) ;;
   set_location_href (js_add target sep ++ lit "discord_id=" ++ e))%handler.

End Part000.

(* ------------------------------------------------------------------ *)
(** ** Both variants, and the page's life as a sequence of events *)

Inductive variant : Type :=
| Id_js
| Part_000.

Definition copyBtn_body (v : variant) (b : browser) (awaited : handler unit)
  : handler unit :=
  match v with
  | Id_js => IdJs.copyBtn_body b awaited
  | Part_000 => Part000.copyBtn_body awaited
  end.

Definition copyBtn_click (v : variant) (b : browser) : handler unit :=
  match v with
  | Id_js => IdJs.copyBtn_click b
  | Part_000 => Part000.copyBtn_click b
  end.

Definition contBtn_click (v : variant) : handler unit :=
  match v with
  | Id_js => IdJs.contBtn_click
  | Part_000 => Part000.contBtn_click
  end.

(** The label a variant shows after a successful write, and after a failed one. *)
Definition success_label (v : variant) : jsstring :=
  match v with
  | Id_js => IdJs.copied
  | Part_000 => Part000.copied
  end.

Definition fallback_label (v : variant) : jsstring :=
  match v with
  | Id_js => IdJs.copied_fallback
  | Part_000 => Part000.select_and_copy
  end.

(** The page after a handler ran, and the browser calls it made. *)
Definition page_after {A} (r : completion A * page * list api_call) : page :=
  snd (fst r).

Definition calls_of {A} (r : completion A * page * list api_call) : list api_call :=
  snd r.

Definition completion_of {A} (r : completion A * page * list api_call)
  : completion A :=
  fst (fst r).

(** [n] clicks on the copy button, each run to its end, with the same
    browser answers. *)
Fixpoint copy_clicks (v : variant) (b : browser) (n : nat) (st : page) : page :=
  match n with
  | O => st
  | S n' => copy_clicks v b n' (page_after (copyBtn_click v b st))
  end.

(** The page together with the clipboard writes still in flight and the
    browser calls made so far. *)
Record world : Type := mkWorld {
  dom : page;
  in_flight : nat;
  calls : list api_call
}.

Definition initial (p : page) : world := mkWorld p 0 [].

Inductive event : Type :=
| CopyClick (b : browser)
| Settles (b : browser)
| ContinueClick
| UserEdits (s : jsstring).

(** Run a handler on the world's page; an uncaught exception ends the
    handler and keeps what it did before. *)
Definition exec {A} (h : handler A) (flights : nat) (w : world) : world :=
  let r := h (dom w) in
  mkWorld (page_after r) flights (calls w ++ calls_of r).

Definition edit (s : jsstring) (p : page) : page :=
  mkPage (TARGET p) s (copyBtn_textContent p) (contBtn_disabled p)
         (location_href p).

(** One event.  A click on the copy button runs the handler up to its
    [await]; the rest runs when the write settles.  Without the Clipboard
    API nothing is awaited and the handler runs to its end at once. *)
Definition step (v : variant) (ev : event) (w : world) : world :=
  match ev with
  | CopyClick b =>
      match clipboard_write b with
      | Absent => exec (copyBtn_click v b) (in_flight w) w
      | _ => exec issue_writeText (S (in_flight w)) w
      end
  | Settles b =>
      match in_flight w with
      | O => w
      | S n => exec (copyBtn_body v b (settled (clipboard_write b))) n w
      end
  | ContinueClick => exec (contBtn_click v) (in_flight w) w
  | UserEdits s => mkWorld (edit s (dom w)) (in_flight w) (calls w)
  end.

Fixpoint run (v : variant) (evs : list event) (w : world) : world :=
  match evs with
  | [] => w
  | ev :: evs' => run v evs' (step v ev w)
  end.

Definition is_copy_click (ev : event) : bool :=
  match ev with
  | CopyClick _ => true
  | _ => false
  end.

(** The separator as the outbound interface is described: [&] if the
    target contains a [?] character (code unit 63), and [?] otherwise. *)
Definition contains_question_mark (T : jsstring) : bool :=
  existsb (Z.eqb 63) T.

Definition separator (T : jsstring) : jsstring :=
  if contains_question_mark T then lit "&" else lit "?".

(** The page after a navigation to [url] was requested. *)
Definition navigated (url : jsstring) (st : page) : page :=
  mkPage (TARGET st) (didInput_value st) (copyBtn_textContent st)
         (contBtn_disabled st) (Some url).

(** The page after a copy click ran to its end showing [label]. *)
Definition copied_page (label : jsstring) (st : page) : page :=
  mkPage (TARGET st) (didInput_value st) label false (location_href st).

(** *** What one run of the copy handler leaves behind *)

Definition is_resolved (o : clip_outcome) : bool :=
  match o with
  | Resolved => true
  | _ => false
  end.

Definition api_present (o : clip_outcome) : bool :=
  match o with
  | Absent => false
  | _ => true
  end.

(** The label the handler ends on, by how the awaited write ended. *)
Definition label_for {A} (v : variant) (c : completion A) : jsstring :=
  match c with
  | Normal _ => success_label v
  | Throw _ => fallback_label v
  end.

(** The browser calls of the catch block. *)
Definition fallback_calls (v : variant) : list api_call :=
  match v with
  | Id_js => [Select; ExecCopy]
  | Part_000 => [Select]
  end.

Definition calls_for {A} (v : variant) (c : completion A) : list api_call :=
  match c with
  | Normal _ => []
  | Throw _ => fallback_calls v
  end.

(** The label after a click, by the outcome of the clipboard write. *)
Definition label_after (v : variant) (o : clip_outcome) : jsstring :=
  match o with
  | Resolved => success_label v
  | _ => fallback_label v
  end.

Definition issued_calls (o : clip_outcome) (st : page) : list api_call :=
  match o with
  | Absent => []
  | _ => [WriteText (didInput_value st)]
  end.

(** [%] or an upper-case hexadecimal digit. *)
Definition is_escape_unit (x : code_unit) : Prop :=
  x = 37 \/ In x (lit "0123456789ABCDEF").

(** *** Sample documents and pages *)

Definition lone_surrogate_page : page :=
  mkPage (JString (lit "https://example.com/welcome")) [0xD800]
         (lit "Copied!") false None.

Definition welcome_page : page :=
  mkPage (JString (lit "https://example.com/welcome")) (lit "12345")
         (lit "Copied!") false None.

Definition welcome_ref_page : page :=
  mkPage (JString (lit "https://example.com/welcome?ref=abc")) (lit "98765")
         (lit "Copied!") false None.

Definition marks_page : page :=
  mkPage (JString (lit "https://example.com/welcome")) (lit "abc 123")
         (lit "Copied (fallback)!") false None.

Definition tag_without_target : script_element := mkScript None.

(** [src/Id.js] runs inside its DOMContentLoaded listener, where
    [document.currentScript] is null and the tag is found by the selector. *)
Definition document_Id_js : document :=
  mkDocument None (Some tag_without_target).

Definition document_part_000 : document :=
  mkDocument (Some tag_without_target) None.

Definition page_with (target : jsval) (value : jsstring) : page :=
  mkPage target value (lit "Copy") true None.

(* ------------------------------------------------------------------ *)
(** ** Element lookup, listener binding and the script-tag selector *)

(** What [document.getElementById] answers for ['did'], ['copy'] and
    ['continue']: [true] for an element, [false] for [null]. *)
Record elements : Type := mkElements {
  didInput_found : bool;
  copyBtn_found : bool;
  contBtn_found : bool
}.

Definition all_found : elements := mkElements true true true.

(** The click listeners the script has bound so far. *)
Record listeners : Type := mkListeners {
  copy_listener : bool;
  continue_listener : bool
}.

(** [copyBtn.addEventListener(...)] and then [contBtn.addEventListener(...)]:
    calling the method on [null] throws and ends the script there. *)
Definition bind_listeners (els : elements) : completion unit * listeners :=
  if copyBtn_found els then
    if contBtn_found els then (Normal tt, mkListeners true true)
    else (Throw TypeError, mkListeners true false)
  else (Throw TypeError, mkListeners false false).

(** What a run of the script's initialisation leaves: how it completed,
    the [TARGET] it resolved (if it got that far) and the listeners bound. *)
Record loaded : Type := mkLoaded {
  load_completion : completion unit;
  load_TARGET : option jsval;
  load_listeners : listeners
}.

(** [src/Id.js], lines 2-24: the body of the DOMContentLoaded listener. *)
Definition IdJs_load (els : elements) (doc : document) : loaded :=
  let target := IdJs.resolve_TARGET doc in
  let '(c, l) := bind_listeners els in
  mkLoaded c (Some target) l.

(** [src/unnamed/part_000], lines 2-22: the script's top level. *)
Definition Part000_load (els : elements) (doc : document) : loaded :=
  match Part000.resolve_TARGET doc with
  | Throw e => mkLoaded (Throw e) None (mkListeners false false)
  | Normal target =>
      let '(c, l) := bind_listeners els in
      mkLoaded c (Some target) l
  end.

(** The property accesses of the handlers on elements that may be [null]. *)
Definition didInput_value_on (els : elements) : handler jsstring :=
  if didInput_found els then get_didInput_value else throw TypeError.

Definition didInput_select_on (els : elements) : handler unit :=
  if didInput_found els then didInput_select else throw TypeError.

Definition set_copyBtn_textContent_on (els : elements) (s : jsstring)
  : handler unit :=
  if copyBtn_found els then set_copyBtn_textContent s else throw TypeError.

Definition set_contBtn_disabled_on (els : elements) (b : bool) : handler unit :=
  if contBtn_found els then set_contBtn_disabled b else throw TypeError.

Definition issue_writeText_on (els : elements) : handler unit :=
  (v <- didInput_value_on els ;; call (WriteText v))%handler.

Definition await_writeText_on (els : elements) (o : clip_outcome) : handler unit :=
  match o with
  | Absent => throw TypeError
  | _ => (issue_writeText_on els ;; settled o)%handler
  end.

(** [src/Id.js], lines 8-19 and 21-24, over looked-up elements. *)
Definition IdJs_copyBtn_click_on (els : elements) (b : browser) : handler unit :=
  (try_catch
     (await_writeText_on els (clipboard_write b) ;;
      set_copyBtn_textContent_on els IdJs.copied)
     (fun _ =>
        didInput_select_on els ;;
        _ <- document_execCommand_copy b ;;
        set_copyBtn_textContent_on els IdJs.copied_fallback) ;;
   set_contBtn_disabled_on els false)%handler.

Definition IdJs_contBtn_click_on (els : elements) : handler unit :=
  (target <- get_TARGET ;;
   has_query <- lift (js_includes target (lit "?")) ;;
   let sep := if has_query : bool then lit "&" else lit "?" in
   v <- didInput_value_on els ;;
   e <- lift (encodeURIComponent v) ;;
   set_location_href (js_add target sep ++ lit "discord_id=" ++ e))%handler.

(** [src/unnamed/part_000], lines 7-17 and 19-22, over looked-up elements. *)
Definition Part000_copyBtn_click_on (els : elements) (b : browser)
  : handler unit :=
  (try_catch
     (await_writeText_on els (clipboard_write b) ;;
      set_copyBtn_textContent_on els Part000.copied ;;
      set_contBtn_disabled_on els false)
     (fun _ =>
        didInput_select_on els ;;
        set_copyBtn_textContent_on els Part000.select_and_copy ;;
        set_contBtn_disabled_on els false))%handler.

Definition Part000_contBtn_click_on (els : elements) : handler unit :=
  (target <- get_TARGET ;;
   has_query <- lift (js_includes target (lit "?")) ;;
   let sep := if has_query : bool then lit "&" else lit "?" in
   v <- didInput_value_on els ;;
   e <- lift (encodeURIComponent v) ;;
   set_location_href (js_add target sep ++ lit "discord_id=" ++ e))%handler.

Definition copyBtn_click_on (v : variant) (els : elements) (b : browser)
  : handler unit :=
  match v with
  | Id_js => IdJs_copyBtn_click_on els b
  | Part_000 => Part000_copyBtn_click_on els b
  end.

Definition contBtn_click_on (v : variant) (els : elements) : handler unit :=
  match v with
  | Id_js => IdJs_contBtn_click_on els
  | Part_000 => Part000_contBtn_click_on els
  end.

(** A script tag of the page: its [src] attribute, if any, and the rest. *)
Record script_tag : Type := mkTag {
  src : option jsstring;
  tag_element : script_element
}.

(** [s.endsWith(suffix)]. *)
Definition ends_with (s suffix : jsstring) : bool :=
  starts_with (rev suffix) (rev s).

(** The attribute selector [[src$="suffix"]]: the attribute is present and
    its value ends with the (non-empty) suffix, compared code unit by code
    unit. *)
Definition matches_src_suffix (suffix : jsstring) (t : script_tag) : bool :=
  match src t, suffix with
  | Some s, _ :: _ => ends_with s suffix
  | _, _ => false
  end.

(** [document.querySelector('script[src$="..."]')]: the first match in
    document order, or [null]. *)
Definition querySelector_script_src_suffix (suffix : jsstring)
           (tags : list script_tag) : option script_element :=
  option_map tag_element (find (matches_src_suffix suffix) tags).

(** The document a variant sees, from the script being run and the script
    tags of the page. *)
Definition document_of (current : option script_element)
           (tags : list script_tag) : document :=
  mkDocument current (querySelector_script_src_suffix (lit "id.js") tags).

(** *** Counting on event sequences and call lists *)

Definition is_write (c : api_call) : bool :=
  match c with
  | WriteText _ => true
  | _ => false
  end.

Definition is_issuing_click (ev : event) : bool :=
  match ev with
  | CopyClick b => api_present (clipboard_write b)
  | _ => false
  end.

(** Only code units that pass through a query string unchanged: the
    unescaped set and [%]. *)
Definition is_query_safe (x : code_unit) : bool :=
  is_unescaped x || (x =? 37).

(** *** Telling encodings apart *)

(** A code unit is a 16-bit number. *)
Definition is_code_unit (c : code_unit) : bool := (0 <=? c) && (c <? 65536).

(** The octets of a code point, in arithmetic. *)
Definition utf8_octets (cp : Z) : list Z :=
  if cp <? 0x80 then [cp]
  else if cp <? 0x800 then [192 + cp / 64; 128 + cp mod 64]
  else if cp <? 0x10000 then
    [224 + cp / 4096; 128 + (cp / 64) mod 64; 128 + cp mod 64]
  else
    [240 + cp / 262144; 128 + (cp / 4096) mod 64; 128 + (cp / 64) mod 64;
     128 + cp mod 64].

(** How an encoding of a non-empty string starts. *)
Inductive first_token (c : code_unit) (rest : jsstring) (e : jsstring) : Prop :=
| token_unescaped (r : jsstring) :
    is_unescaped c = true ->
    encodeURIComponent rest = Normal r ->
    e = c :: r ->
    first_token c rest e
| token_pair (d : code_unit) (rest' r : jsstring) :
    is_unescaped c = false ->
    is_high_surrogate c = true ->
    rest = d :: rest' ->
    is_low_surrogate d = true ->
    encodeURIComponent rest' = Normal r ->
    e = escape (code_point c d) ++ r ->
    first_token c rest e
| token_escaped (r : jsstring) :
    is_unescaped c = false ->
    is_high_surrogate c = false ->
    is_low_surrogate c = false ->
    encodeURIComponent rest = Normal r ->
    e = escape c ++ r ->
    first_token c rest e.

(** *** Percent-encoding as the standards word it *)

(** UTF-16 (Unicode, section 3.9): the scalar values a sequence of 16-bit
    code units stands for.  A unit outside the surrogate range stands for
    itself; a high surrogate followed by a low one stands for
    [0x10000 + (hi - 0xD800) * 0x400 + (lo - 0xDC00)]; any other sequence
    is ill-formed. *)
Fixpoint utf16_scalars (s : jsstring) : option (list Z) :=
  match s with
  | [] => Some []
  | c :: rest =>
      if ((0 <=? c) && (c <? 0xD800)) || ((0xE000 <=? c) && (c <? 0x10000))
      then option_map (cons c) (utf16_scalars rest)
      else if (0xD800 <=? c) && (c <? 0xDC00) then
        match rest with
        | d :: rest' =>
            if (0xDC00 <=? d) && (d <? 0xE000) then
              option_map
                (cons (0x10000 + (c - 0xD800) * 0x400 + (d - 0xDC00)))
                (utf16_scalars rest')
            else None
        | [] => None
        end
      else None
  end.

(** The characters a URI component keeps as they are (ECMA-262,
    uriUnescaped): ASCII letters, decimal digits and the marks
    [-_.!~*'()]. *)
Definition uri_unescaped (u : Z) : bool :=
  ((48 <=? u) && (u <=? 57)) || ((65 <=? u) && (u <=? 90))
  || ((97 <=? u) && (u <=? 122)) || existsb (Z.eqb u) (lit "-_.!~*'()").

(** RFC 3986, section 2.1: an octet is written [%] HEXDIG HEXDIG, with
    upper-case digits. *)
Definition HEXDIG (d : Z) : code_unit :=
  if d <? 10 then 48 + d else 55 + d.

Definition pct_encoded (octet : Z) : jsstring :=
  [37; HEXDIG (octet / 16); HEXDIG (octet mod 16)].

(** A character in a URI component: itself when unreserved, and else the
    escapes of the octets of its UTF-8 form (RFC 3629, section 3, the
    table read as arithmetic in [utf8_octets]). *)
Definition pct_char (u : Z) : jsstring :=
  if uri_unescaped u then [u] else flat_map pct_encoded (utf8_octets u).

(** The way back: the octets a run of escapes stands for, and the scalar
    value a UTF-8 octet sequence stands for. *)
Definition unHEXDIG (x : code_unit) : option Z :=
  if (48 <=? x) && (x <=? 57) then Some (x - 48)
  else if (65 <=? x) && (x <=? 70) then Some (x - 55)
  else None.

Fixpoint pct_octets (s : jsstring) : option (list Z) :=
  match s with
  | [] => Some []
  | p :: h :: l :: rest =>
      if p =? 37 then
        match unHEXDIG h, unHEXDIG l, pct_octets rest with
        | Some a, Some b, Some os => Some (16 * a + b :: os)
        | _, _, _ => None
        end
      else None
  | _ => None
  end.

Definition is_continuation (o : Z) : bool := (0x80 <=? o) && (o <? 0xC0).

Definition utf8_scalar (os : list Z) : option Z :=
  match os with
  | [o1] =>
      if (0 <=? o1) && (o1 <? 0x80) then Some o1 else None
  | [o1; o2] =>
      if (0xC0 <=? o1) && (o1 <? 0xE0) && is_continuation o2
      then Some ((o1 - 0xC0) * 64 + (o2 - 0x80)) else None
  | [o1; o2; o3] =>
      if (0xE0 <=? o1) && (o1 <? 0xF0) && is_continuation o2
         && is_continuation o3
      then Some ((o1 - 0xE0) * 4096 + (o2 - 0x80) * 64 + (o3 - 0x80))
      else None
  | [o1; o2; o3; o4] =>
      if (0xF0 <=? o1) && (o1 <? 0xF8) && is_continuation o2
         && is_continuation o3 && is_continuation o4
      then Some ((o1 - 0xF0) * 262144 + (o2 - 0x80) * 4096
                 + (o3 - 0x80) * 64 + (o4 - 0x80))
      else None
  | _ => None
  end.

(** Percent-decoding of one escaped character. *)
Definition pct_decode_char (s : jsstring) : option Z :=
  match pct_octets s with
  | Some os => utf8_scalar os
  | None => None
  end.

(** A field holding [a b&c#d], then e acute, the euro sign and an emoji
    outside the BMP. *)
Definition accents_page : page :=
  mkPage (JString (lit "https://example.com/welcome"))
         (lit "a b&c#d" ++ [0xE9; 0x20AC; 0xD83D; 0xDE00])
         (lit "Copied!") false None.

(** A click on the continue button as the browser delivers it (HTML: a
    disabled button dispatches no click event): the listener runs only
    when the button is enabled. *)
Definition contBtn_clicked (v : variant) : handler unit :=
  fun st =>
    if contBtn_disabled st then (Normal tt, st, []) else contBtn_click v st.

(* ------------------------------------------------------------------ *)
(** ** The JavaScript fragment: evaluation on examples *)

Example encode_plain : encodeURIComponent (lit "12345") = Normal (lit "12345").
Proof. reflexivity. Qed.

Example encode_marks :
  encodeURIComponent (lit "abc 123&x#y") = Normal (lit "abc%20123%26x%23y").
Proof. reflexivity. Qed.

Example encode_e_acute : encodeURIComponent [0xE9] = Normal (lit "%C3%A9").
Proof. reflexivity. Qed.

Example encode_euro : encodeURIComponent [0x20AC] = Normal (lit "%E2%82%AC").
Proof. reflexivity. Qed.

Example encode_emoji :
  encodeURIComponent [0xD83D; 0xDE00] = Normal (lit "%F0%9F%98%80").
Proof. reflexivity. Qed.

Example encode_lone_surrogate : encodeURIComponent [0xD800] = Throw URIError.
Proof. reflexivity. Qed.

Example includes_query :
  includes (lit "https://example.com/welcome?ref=abc") (lit "?") = true.
Proof. reflexivity. Qed.

Example includes_no_query :
  includes (lit "https://example.com/welcome") (lit "?") = false.
Proof. reflexivity. Qed.

(* ------------------------------------------------------------------ *)
(** ** Lemmas on the JavaScript fragment *)

(** Strings are read two code units at a time where surrogates pair up. *)
Lemma jsstring_pair_ind (P : jsstring -> Prop) :
  P [] ->
  (forall c, P [c]) ->
  (forall c d s, P s -> P (d :: s) -> P (c :: d :: s)) ->
  forall s, P s.
Proof.
  intros Hnil Hone Hstep s.
  assert (H : P s /\ forall c, P (c :: s)).
  { induction s as [|d s [IH1 IH2]].
    - split; [exact Hnil | exact Hone].
    - split; [apply IH2 | intro c; apply Hstep; [exact IH1 | apply IH2]]. }
  exact (proj1 H).
Qed.

Lemma includes_one_char (c : code_unit) (s : jsstring) :
  includes s [c] = existsb (Z.eqb c) s.
Proof.
  induction s as [|a s IH]; simpl.
  - reflexivity.
  - rewrite IH. destruct s; rewrite andb_true_r; reflexivity.
Qed.

Lemma includes_question_mark (T : jsstring) :
  includes T (lit "?") = contains_question_mark T.
Proof. apply (includes_one_char 63). Qed.

Lemma unescaped_is_ascii (c : code_unit) :
  is_unescaped c = true -> 0 <= c < 128.
Proof.
  unfold is_unescaped. intro H.
  apply existsb_exists in H. destruct H as [x [Hin Heq]].
  apply Z.eqb_eq in Heq. subst x.
  assert (Hall : forallb (fun x => (0 <=? x) && (x <? 128)) unescapedSet = true)
    by reflexivity.
  rewrite forallb_forall in Hall. specialize (Hall c Hin).
  apply andb_true_iff in Hall. destruct Hall as [H0 H1].
  apply Z.leb_le in H0. apply Z.ltb_lt in H1. lia.
Qed.

Lemma unescaped_not_surrogate (c : code_unit) :
  is_unescaped c = true ->
  is_high_surrogate c = false /\ is_low_surrogate c = false.
Proof.
  intro H. apply unescaped_is_ascii in H.
  unfold is_high_surrogate, is_low_surrogate.
  split; apply andb_false_iff; left; apply Z.leb_gt; lia.
Qed.

(** One step of the encoder and of the well-formedness test. *)
Lemma encodeURIComponent_cons (c : code_unit) (rest : jsstring) :
  encodeURIComponent (c :: rest) =
  if is_unescaped c then
    (r <- encodeURIComponent rest ;; Normal (c :: r))%completion
  else if is_high_surrogate c then
    match rest with
    | d :: rest' =>
        if is_low_surrogate d then
          (r <- encodeURIComponent rest' ;;
           Normal (escape (code_point c d) ++ r))%completion
        else Throw URIError
    | [] => Throw URIError
    end
  else if is_low_surrogate c then Throw URIError
  else (r <- encodeURIComponent rest ;; Normal (escape c ++ r))%completion.
Proof. reflexivity. Qed.

Lemma isWellFormed_cons (c : code_unit) (rest : jsstring) :
  isWellFormed (c :: rest) =
  if is_high_surrogate c then
    match rest with
    | d :: rest' => is_low_surrogate d && isWellFormed rest'
    | [] => false
    end
  else negb (is_low_surrogate c) && isWellFormed rest.
Proof. reflexivity. Qed.

(** [encodeURIComponent] returns exactly on the well-formed strings. *)
Lemma encodeURIComponent_well_formed (s : jsstring) :
  isWellFormed s = true -> exists e, encodeURIComponent s = Normal e.
Proof.
  induction s as [|c|c d s IH1 IH2] using jsstring_pair_ind.
  - intros _. exists []. reflexivity.
  - simpl. destruct (is_unescaped c) eqn:Hu.
    + destruct (unescaped_not_surrogate c Hu) as [Hh Hl]. rewrite Hh.
      intros _. eexists. reflexivity.
    + destruct (is_high_surrogate c); [discriminate|].
      destruct (is_low_surrogate c); [discriminate|].
      intros _. eexists. reflexivity.
  - intro H. rewrite isWellFormed_cons in H. rewrite encodeURIComponent_cons.
    destruct (is_unescaped c) eqn:Hu.
    + destruct (unescaped_not_surrogate c Hu) as [Hh Hl].
      rewrite Hh, Hl in H. simpl in H.
      destruct (IH2 H) as [e He]. rewrite He. eexists. reflexivity.
    + destruct (is_high_surrogate c).
      * apply andb_true_iff in H. destruct H as [Hd Hs]. rewrite Hd.
        destruct (IH1 Hs) as [e He]. rewrite He. eexists. reflexivity.
      * apply andb_true_iff in H. destruct H as [Hc Hs].
        apply negb_true_iff in Hc. rewrite Hc.
        destruct (IH2 Hs) as [e He]. rewrite He. eexists. reflexivity.
Qed.

Lemma encodeURIComponent_ill_formed (s : jsstring) :
  isWellFormed s = false -> encodeURIComponent s = Throw URIError.
Proof.
  induction s as [|c|c d s IH1 IH2] using jsstring_pair_ind.
  - discriminate.
  - simpl. destruct (is_unescaped c) eqn:Hu.
    + destruct (unescaped_not_surrogate c Hu) as [Hh Hl]. rewrite Hh, Hl.
      discriminate.
    + destruct (is_high_surrogate c); [reflexivity|].
      destruct (is_low_surrogate c); [reflexivity | discriminate].
  - intro H. rewrite isWellFormed_cons in H. rewrite encodeURIComponent_cons.
    destruct (is_unescaped c) eqn:Hu.
    + destruct (unescaped_not_surrogate c Hu) as [Hh Hl].
      rewrite Hh, Hl in H. simpl in H. rewrite (IH2 H). reflexivity.
    + destruct (is_high_surrogate c).
      * destruct (is_low_surrogate d); [|reflexivity].
        simpl in H. rewrite (IH1 H). reflexivity.
      * destruct (is_low_surrogate c); [reflexivity|].
        simpl in H. rewrite (IH2 H). reflexivity.
Qed.

(* ------------------------------------------------------------------ *)
(** ** The continue handler *)

(** What the handler computes when [TARGET] is a string: both variants
    read the field, encode it and assign the destination, or let the
    exception of [encodeURIComponent] escape before any assignment. *)
Lemma contBtn_click_string (v : variant) (st : page) (T : jsstring) :
  TARGET st = JString T ->
  contBtn_click v st =
  match encodeURIComponent (didInput_value st) with
  | Normal e =>
      (Normal tt,
       navigated (T ++ separator T ++ lit "discord_id=" ++ e) st, [])
  | Throw x => (Throw x, st, [])
  end.
Proof.
  intro HT.
  destruct v;
    unfold contBtn_click, IdJs.contBtn_click, Part000.contBtn_click,
      bind, get_TARGET, get_didInput_value, lift, set_location_href;
    rewrite HT; unfold js_includes, js_add;
    rewrite includes_question_mark; unfold separator, navigated;
    destruct (encodeURIComponent (didInput_value st));
    destruct (contains_question_mark T);
    rewrite ?HT, <- ?app_assoc; reflexivity.
Qed.

(** With [TARGET] null the member access [TARGET.includes] throws and
    nothing is assigned. *)
Lemma contBtn_click_null (v : variant) (st : page) :
  TARGET st = JNull ->
  contBtn_click v st = (Throw TypeError, st, []).
Proof.
  intro HT.
  destruct v;
    unfold contBtn_click, IdJs.contBtn_click, Part000.contBtn_click,
      bind, get_TARGET, lift;
    rewrite HT; reflexivity.
Qed.

(** C1, as stated, fails on a field holding an unpaired surrogate code
    unit: [encodeURIComponent] throws a URIError, the handler ends there
    and [location.href] is never assigned, in either variant. *)
Lemma continue_lone_surrogate_throws :
  contBtn_click Id_js lone_surrogate_page
    = (Throw URIError, lone_surrogate_page, []) /\
  contBtn_click Part_000 lone_surrogate_page
    = (Throw URIError, lone_surrogate_page, []) /\
  location_href (page_after (contBtn_click Id_js lone_surrogate_page)) = None /\
  location_href (page_after (contBtn_click Part_000 lone_surrogate_page)) = None.
Proof. repeat split; reflexivity. Qed.

(** C1 (amended): for every target string [T] and every field value with
    no unpaired surrogate, the continue click of either variant completes
    and assigns to [location.href] the string [T], then the separator
    ([&] if [T] contains a [?], else [?]), then [discord_id=], then the
    percent-encoding [encodeURIComponent] returns for the value; nothing
    else on the page changes. *)
Theorem continue_navigates (v : variant) (st : page) (T : jsstring) :
  TARGET st = JString T ->
  isWellFormed (didInput_value st) = true ->
  exists e,
    encodeURIComponent (didInput_value st) = Normal e /\
    contBtn_click v st =
    (Normal tt, navigated (T ++ separator T ++ lit "discord_id=" ++ e) st, []).
Proof.
  intros HT Hwf.
  destruct (encodeURIComponent_well_formed _ Hwf) as [e He].
  exists e. split; [exact He|].
  rewrite (contBtn_click_string v st T HT), He. reflexivity.
Qed.

Lemma continue_navigates_witness :
  TARGET welcome_ref_page = JString (lit "https://example.com/welcome?ref=abc") /\
  isWellFormed (didInput_value welcome_ref_page) = true /\
  exists e,
    encodeURIComponent (didInput_value welcome_ref_page) = Normal e /\
    contBtn_click Id_js welcome_ref_page =
    (Normal tt,
     navigated (lit "https://example.com/welcome?ref=abc"
                  ++ separator (lit "https://example.com/welcome?ref=abc")
                  ++ lit "discord_id=" ++ e) welcome_ref_page, []).
Proof.
  split; [reflexivity|]. split; [reflexivity|].
  apply (continue_navigates Id_js welcome_ref_page
           (lit "https://example.com/welcome?ref=abc")); reflexivity.
Defined.

Example continue_welcome :
  location_href (page_after (contBtn_click Id_js welcome_page))
  = Some (lit "https://example.com/welcome?discord_id=12345").
Proof. reflexivity. Qed.

Example continue_welcome_ref :
  location_href (page_after (contBtn_click Part_000 welcome_ref_page))
  = Some (lit "https://example.com/welcome?ref=abc&discord_id=98765").
Proof. reflexivity. Qed.

(** C9: the continue handlers of [src/Id.js] and [src/unnamed/part_000]
    are extensionally equal: on every page (every value of [TARGET], null
    included, and every field value) they complete the same way, leave
    the same page and so request the same destination. *)
Theorem continue_handlers_agree (st : page) :
  IdJs.contBtn_click st = Part000.contBtn_click st.
Proof.
  destruct (TARGET st) as [|T] eqn:HT.
  - rewrite (contBtn_click_null Id_js st HT : IdJs.contBtn_click st = _).
    rewrite (contBtn_click_null Part_000 st HT : Part000.contBtn_click st = _).
    reflexivity.
  - rewrite (contBtn_click_string Id_js st T HT : IdJs.contBtn_click st = _).
    rewrite (contBtn_click_string Part_000 st T HT : Part000.contBtn_click st = _).
    reflexivity.
Qed.

(** *** Configuration without a [data-target] attribute *)

(** C2 on [src/Id.js]: with the script tag found and no [data-target] on
    it, [getAttribute] answers null, [TARGET] is null rather than the empty
    string, and the continue click throws a TypeError at [TARGET.includes]
    without assigning [location.href]. *)
Theorem Id_js_missing_data_target :
  IdJs.resolve_TARGET document_Id_js = JNull /\
  contBtn_click Id_js
    (page_with (IdJs.resolve_TARGET document_Id_js) (lit "xyz"))
  = (Throw TypeError,
     page_with (IdJs.resolve_TARGET document_Id_js) (lit "xyz"), []) /\
  location_href
    (page_after
       (contBtn_click Id_js
          (page_with (IdJs.resolve_TARGET document_Id_js) (lit "xyz"))))
  = None.
Proof. repeat split; reflexivity. Qed.

(** The sibling variant does what C2 says: a missing attribute resolves to
    the empty string and the click lands on the query-only link. *)
Lemma part_000_missing_data_target (doc : document) (el : script_element)
      (st : page) :
  currentScript doc = Some el ->
  data_target el = None ->
  Normal (TARGET st) = Part000.resolve_TARGET doc ->
  isWellFormed (didInput_value st) = true ->
  TARGET st = JString (lit "") /\
  exists e,
    encodeURIComponent (didInput_value st) = Normal e /\
    contBtn_click Part_000 st
    = (Normal tt, navigated (lit "?discord_id=" ++ e) st, []).
Proof.
  intros Hcs Hattr HT Hwf.
  unfold Part000.resolve_TARGET, getAttribute_data_target in HT.
  rewrite Hcs, Hattr in HT. simpl in HT. injection HT as HT.
  split; [exact HT|].
  destruct (encodeURIComponent_well_formed _ Hwf) as [e He].
  exists e. split; [exact He|].
  rewrite (contBtn_click_string Part_000 st [] HT), He. reflexivity.
Qed.

Example part_000_unset_target :
  location_href
    (page_after (contBtn_click Part_000 (page_with (JString (lit "")) (lit "xyz"))))
  = Some (lit "?discord_id=xyz").
Proof. reflexivity. Qed.

(** When no script tag is found at all, [src/Id.js] does default to the
    empty string. *)
Example Id_js_no_script_tag :
  IdJs.resolve_TARGET (mkDocument None None) = JString (lit "").
Proof. reflexivity. Qed.

(* ------------------------------------------------------------------ *)
(** ** Escaping in the destination *)

(** Encoding goes through concatenation once the left part is encodable:
    no surrogate pair is cut by the split. *)
Lemma encodeURIComponent_app (b a ea : jsstring) :
  encodeURIComponent a = Normal ea ->
  encodeURIComponent (a ++ b) =
  (eb <- encodeURIComponent b ;; Normal (ea ++ eb))%completion.
Proof.
  revert ea.
  induction a as [|c|c d s IH1 IH2] using jsstring_pair_ind; intros ea Ha.
  - injection Ha as <-. simpl. destruct (encodeURIComponent b); reflexivity.
  - change ([c] ++ b) with (c :: b).
    rewrite encodeURIComponent_cons in Ha |- *.
    destruct (is_unescaped c).
    + injection Ha as <-. reflexivity.
    + destruct (is_high_surrogate c); [discriminate|].
      destruct (is_low_surrogate c); [discriminate|].
      simpl in Ha. injection Ha as <-. rewrite app_nil_r. reflexivity.
  - change ((c :: d :: s) ++ b) with (c :: d :: (s ++ b)).
    rewrite encodeURIComponent_cons in Ha |- *.
    change (d :: s ++ b) with ((d :: s) ++ b).
    destruct (is_unescaped c).
    + destruct (encodeURIComponent (d :: s)) as [r|] eqn:Hr; [|discriminate].
      injection Ha as <-. rewrite (IH2 r eq_refl).
      destruct (encodeURIComponent b); reflexivity.
    + destruct (is_high_surrogate c).
      * destruct (is_low_surrogate d); [|discriminate].
        destruct (encodeURIComponent s) as [r|] eqn:Hr; [|discriminate].
        injection Ha as <-. rewrite (IH1 r eq_refl).
        destruct (encodeURIComponent b); simpl;
          rewrite <- ?app_assoc; reflexivity.
      * destruct (is_low_surrogate c); [discriminate|].
        destruct (encodeURIComponent (d :: s)) as [r|] eqn:Hr; [|discriminate].
        injection Ha as <-. rewrite (IH2 r eq_refl).
        destruct (encodeURIComponent b); simpl;
          rewrite <- ?app_assoc; reflexivity.
Qed.

Lemma hex_digit_is_hex (d : Z) : In (hex_digit d) (lit "0123456789ABCDEF").
Proof.
  unfold hex_digit.
  destruct (nth_in_or_default (Z.to_nat d) (lit "0123456789ABCDEF") 48) as [H|H].
  - exact H.
  - rewrite H. simpl. tauto.
Qed.

Lemma percent_units (octet : Z) : Forall is_escape_unit (percent octet).
Proof.
  unfold percent. simpl.
  apply Forall_cons; [left; reflexivity|].
  apply Forall_cons; [right; apply hex_digit_is_hex|].
  apply Forall_cons; [right; apply hex_digit_is_hex|].
  apply Forall_nil.
Qed.

Lemma escape_units (cp : Z) : Forall is_escape_unit (escape cp).
Proof.
  unfold escape. apply Forall_forall. intros x Hx.
  apply in_flat_map in Hx. destruct Hx as [octet [_ Hx]].
  exact (proj1 (Forall_forall _ _) (percent_units octet) x Hx).
Qed.

(** A code unit outside the unescaped set that is no surrogate is
    replaced by the escapes of its UTF-8 octets. *)
Lemma encodeURIComponent_escaped (c : code_unit) (rest : jsstring) :
  is_unescaped c = false ->
  is_high_surrogate c = false ->
  is_low_surrogate c = false ->
  encodeURIComponent (c :: rest) =
  (r <- encodeURIComponent rest ;; Normal (escape c ++ r))%completion.
Proof.
  intros Hu Hh Hl. rewrite encodeURIComponent_cons, Hu, Hh, Hl. reflexivity.
Qed.

(** A surrogate pair is replaced by the four escapes of its code point. *)
Lemma encodeURIComponent_pair (hi lo : code_unit) (rest : jsstring) :
  is_high_surrogate hi = true ->
  is_low_surrogate lo = true ->
  encodeURIComponent (hi :: lo :: rest) =
  (r <- encodeURIComponent rest ;;
   Normal (escape (code_point hi lo) ++ r))%completion.
Proof.
  intros Hh Hl. rewrite encodeURIComponent_cons, Hh, Hl.
  destruct (is_unescaped hi) eqn:Hu; [|reflexivity].
  destruct (unescaped_not_surrogate hi Hu) as [Hn _]. congruence.
Qed.

Example destination_marks :
  location_href
    (page_after
       (contBtn_click Part_000
          (page_with (JString (lit "https://example.com/welcome?ref=abc"))
                     (lit "a b&c#d"))))
  = Some (lit "https://example.com/welcome?ref=abc&discord_id=a%20b%26c%23d").
Proof. reflexivity. Qed.

(* ------------------------------------------------------------------ *)
(** ** The copy handler *)

(** The handler body around an awaited step that leaves the page alone:
    it always completes, replaces the label and enables the button. *)
Lemma copyBtn_body_run (v : variant) (b : browser) (awaited : handler unit)
      (st : page) :
  page_after (awaited st) = st ->
  copyBtn_body v b awaited st =
  (Normal tt,
   copied_page (label_for v (completion_of (awaited st))) st,
   calls_of (awaited st) ++ calls_for v (completion_of (awaited st))).
Proof.
  unfold page_after, completion_of, calls_of.
  destruct (awaited st) as [[[[]|e] p] c] eqn:Haw; simpl; intros ->;
    destruct v;
    unfold copyBtn_body, IdJs.copyBtn_body, Part000.copyBtn_body,
      try_catch, bind;
    rewrite Haw; simpl; rewrite ?app_nil_r; reflexivity.
Qed.

Lemma await_writeText_run (o : clip_outcome) (st : page) :
  await_writeText o st =
  (match o with Resolved => Normal tt | Rejected => Throw DOMException
              | Absent => Throw TypeError end,
   st,
   match o with Absent => [] | _ => [WriteText (didInput_value st)] end).
Proof. destruct o; reflexivity. Qed.

Lemma settled_run (o : clip_outcome) (st : page) :
  settled o st =
  (match o with Resolved => Normal tt | Rejected => Throw DOMException
              | Absent => Throw TypeError end,
   st, []).
Proof. destruct o; reflexivity. Qed.

(** One click on the copy button, run to its end. *)
Lemma copyBtn_click_run (v : variant) (b : browser) (st : page) :
  copyBtn_click v b st =
  (Normal tt,
   copied_page (label_after v (clipboard_write b)) st,
   issued_calls (clipboard_write b) st
     ++ match clipboard_write b with
        | Resolved => []
        | _ => fallback_calls v
        end).
Proof.
  assert (H : copyBtn_click v b = copyBtn_body v b (await_writeText (clipboard_write b)))
    by (destruct v; reflexivity).
  rewrite H, copyBtn_body_run; rewrite await_writeText_run;
    [|reflexivity].
  destruct (clipboard_write b); reflexivity.
Qed.

(** The rest of the handler, once the write has settled. *)
Lemma copyBtn_resume_run (v : variant) (b : browser) (st : page) :
  copyBtn_body v b (settled (clipboard_write b)) st =
  (Normal tt,
   copied_page (label_after v (clipboard_write b)) st,
   match clipboard_write b with
   | Resolved => []
   | _ => fallback_calls v
   end).
Proof.
  rewrite copyBtn_body_run; rewrite settled_run; [|reflexivity].
  destruct (clipboard_write b); reflexivity.
Qed.

(** C3: for every field value and each of the three outcomes of the
    clipboard write (resolved, rejected, API absent), whatever
    [execCommand] answers, a click on the copy button completes with the
    label equal to one of the variant's two strings (['Copied!'] or
    ['Copied (fallback)!'] in [src/Id.js], ['Copied!'] or ['Select & copy']
    in the other variant) and the continue button enabled. *)
Theorem copy_click_label_and_enable (v : variant) (b : browser) (st : page) :
  completion_of (copyBtn_click v b st) = Normal tt /\
  (copyBtn_textContent (page_after (copyBtn_click v b st)) = success_label v \/
   copyBtn_textContent (page_after (copyBtn_click v b st)) = fallback_label v) /\
  contBtn_disabled (page_after (copyBtn_click v b st)) = false /\
  success_label Id_js = lit "Copied!" /\
  fallback_label Id_js = lit "Copied (fallback)!" /\
  success_label Part_000 = lit "Copied!" /\
  fallback_label Part_000 = lit "Select & copy".
Proof.
  rewrite copyBtn_click_run. unfold completion_of, page_after. simpl.
  repeat split.
  destruct (clipboard_write b); simpl; auto.
Qed.

Example copy_rejected_Id_js :
  copyBtn_click Id_js (mkBrowser Rejected false)
    (page_with (JString (lit "https://example.com/welcome")) (lit "abc 123"))
  = (Normal tt,
     mkPage (JString (lit "https://example.com/welcome")) (lit "abc 123")
            (lit "Copied (fallback)!") false None,
     [WriteText (lit "abc 123"); Select; ExecCopy]).
Proof. reflexivity. Qed.

Example copy_absent_part_000 :
  copyBtn_click Part_000 (mkBrowser Absent true)
    (page_with (JString (lit "")) (lit "abc 123"))
  = (Normal tt,
     mkPage (JString (lit "")) (lit "abc 123") (lit "Select & copy") false None,
     [Select]).
Proof. reflexivity. Qed.

(** C4, as stated, fails on [src/unnamed/part_000]: when the write is
    rejected its catch block selects the field and sets the label, and
    never calls [document.execCommand('copy')]. *)
Lemma part_000_fallback_without_execCommand :
  calls_of
    (copyBtn_click Part_000 (mkBrowser Rejected true)
       (page_with (JString (lit "https://example.com/welcome")) (lit "12345")))
  = [WriteText (lit "12345"); Select] /\
  ~ In ExecCopy
      (calls_of
         (copyBtn_click Part_000 (mkBrowser Rejected true)
            (page_with (JString (lit "https://example.com/welcome"))
                       (lit "12345")))).
Proof.
  split; [reflexivity|].
  simpl. intros [H|[H|[]]]; discriminate.
Qed.

(** C4 (amended): whenever the clipboard write fails (rejected, or the API
    absent), whatever [execCommand] answers, both variants select the
    field's text and set the label to their fallback string, which differs
    from their success string; [src/Id.js] calls
    [document.execCommand('copy')] right after the selection and shows
    ['Copied (fallback)!'], while the other variant makes no such call and
    shows ['Select & copy']. *)
Theorem copy_fallback_path (v : variant) (b : browser) (st : page) :
  is_resolved (clipboard_write b) = false ->
  calls_of (copyBtn_click v b st) =
    issued_calls (clipboard_write b) st
      ++ Select :: match v with Id_js => [ExecCopy] | Part_000 => [] end /\
  copyBtn_textContent (page_after (copyBtn_click v b st)) = fallback_label v /\
  fallback_label v <> success_label v /\
  fallback_label Id_js = lit "Copied (fallback)!" /\
  fallback_label Part_000 = lit "Select & copy".
Proof.
  intro Hfail. rewrite copyBtn_click_run. unfold calls_of, page_after. simpl.
  destruct (clipboard_write b); [discriminate Hfail| |];
    (split; [destruct v; reflexivity|]);
    (split; [reflexivity|]);
    (split; [destruct v; discriminate|]);
    split; reflexivity.
Qed.

Lemma copy_fallback_path_witness :
  is_resolved (clipboard_write (mkBrowser Absent false)) = false /\
  calls_of (copyBtn_click Id_js (mkBrowser Absent false) marks_page) =
    issued_calls (clipboard_write (mkBrowser Absent false)) marks_page
      ++ [Select; ExecCopy] /\
  copyBtn_textContent
    (page_after (copyBtn_click Id_js (mkBrowser Absent false) marks_page))
  = fallback_label Id_js /\
  fallback_label Id_js <> success_label Id_js /\
  fallback_label Id_js = lit "Copied (fallback)!" /\
  fallback_label Part_000 = lit "Select & copy".
Proof.
  split; [reflexivity|].
  apply (copy_fallback_path Id_js (mkBrowser Absent false) marks_page).
  reflexivity.
Defined.

(** C10: a click on the copy button, on the success and on the fallback
    path of either variant, leaves the field's value, [TARGET] and
    [location.href] as they were: the page afterwards is the page before
    with the copy button's label replaced and the continue button
    enabled.  (The clipboard write, the selection and [execCommand] are
    calls into the browser, recorded beside the page.) *)
Theorem copy_click_frame (v : variant) (b : browser) (st : page) :
  didInput_value (page_after (copyBtn_click v b st)) = didInput_value st /\
  TARGET (page_after (copyBtn_click v b st)) = TARGET st /\
  location_href (page_after (copyBtn_click v b st)) = location_href st /\
  page_after (copyBtn_click v b st) =
    mkPage (TARGET st) (didInput_value st)
           (copyBtn_textContent (page_after (copyBtn_click v b st)))
           false (location_href st).
Proof.
  rewrite copyBtn_click_run. unfold page_after, copied_page. simpl.
  repeat split.
Qed.

(** Clicking again on an already copied page changes nothing more. *)
Lemma copy_clicks_succ (v : variant) (b : browser) (n : nat) (st : page) :
  copy_clicks v b (S n) st =
  copied_page (label_after v (clipboard_write b)) st.
Proof.
  revert st. induction n as [|n IH]; intro st.
  - simpl. rewrite copyBtn_click_run. reflexivity.
  - change (copy_clicks v b (S (S n)) st)
      with (copy_clicks v b (S n) (page_after (copyBtn_click v b st))).
    rewrite IH, copyBtn_click_run. reflexivity.
Qed.

(** C8: with the field and the outcome of the clipboard write unchanged,
    any number of further clicks on the copy button leaves the page as the
    first click left it, the label included; the continue button is
    enabled after every click, and after any number of clicks it is
    disabled only if it was disabled at the start. *)
Theorem copy_click_idempotent (v : variant) (b : browser) (n : nat) (st : page) :
  copy_clicks v b (S n) st = copy_clicks v b 1 st /\
  copyBtn_textContent (copy_clicks v b (S n) st)
    = copyBtn_textContent (copy_clicks v b 1 st) /\
  didInput_value (copy_clicks v b n st) = didInput_value st /\
  contBtn_disabled (copy_clicks v b (S n) st) = false /\
  (contBtn_disabled (copy_clicks v b n st) = false \/
   contBtn_disabled st = true).
Proof.
  rewrite !copy_clicks_succ.
  split; [reflexivity|]. split; [reflexivity|].
  split; [|split; [reflexivity|]].
  - destruct n; [reflexivity | rewrite copy_clicks_succ; reflexivity].
  - destruct n.
    + simpl. destruct (contBtn_disabled st); auto.
    + left. rewrite copy_clicks_succ. reflexivity.
Qed.

(* ------------------------------------------------------------------ *)
(** ** The page's life: clicks, settling writes and edits in any order *)

Lemma run_app (v : variant) (pre post : list event) (w : world) :
  run v (pre ++ post) w = run v post (run v pre w).
Proof.
  revert w. induction pre as [|ev pre IH]; intro w; simpl.
  - reflexivity.
  - apply IH.
Qed.

(** The continue handler touches [location.href] and nothing else. *)
Lemma contBtn_click_keeps (v : variant) (st : page) :
  TARGET (page_after (contBtn_click v st)) = TARGET st /\
  didInput_value (page_after (contBtn_click v st)) = didInput_value st /\
  copyBtn_textContent (page_after (contBtn_click v st)) = copyBtn_textContent st /\
  contBtn_disabled (page_after (contBtn_click v st)) = contBtn_disabled st.
Proof.
  destruct (TARGET st) as [|T] eqn:HT.
  - rewrite (contBtn_click_null v st HT).
    unfold page_after; simpl; rewrite ?HT; repeat split.
  - rewrite (contBtn_click_string v st T HT).
    destruct (encodeURIComponent (didInput_value st));
      unfold page_after; simpl; rewrite ?HT; repeat split.
Qed.

(** Splitting the copy handler at its [await] loses nothing: the click
    followed at once by the settling of its write is the handler run to
    its end. *)
Lemma click_then_settle (v : variant) (b : browser) (w : world) :
  api_present (clipboard_write b) = true ->
  step v (Settles b) (step v (CopyClick b) w) =
  exec (copyBtn_click v b) (in_flight w) w.
Proof.
  intro Hp.
  assert (Hstart : step v (CopyClick b) w
                   = exec issue_writeText (S (in_flight w)) w).
  { simpl. destruct (clipboard_write b); [reflexivity | reflexivity |].
    discriminate Hp. }
  rewrite Hstart. unfold step, exec. simpl.
  rewrite copyBtn_resume_run, copyBtn_click_run.
  unfold page_after, calls_of. simpl.
  destruct (clipboard_write b); [| |discriminate Hp];
    simpl; rewrite <- app_assoc; reflexivity.
Qed.

(** No event changes [TARGET]. *)
Lemma step_TARGET (v : variant) (ev : event) (w : world) :
  TARGET (dom (step v ev w)) = TARGET (dom w).
Proof.
  destruct ev as [b|b| |s]; simpl.
  - destruct (clipboard_write b) eqn:Ho; simpl; try reflexivity.
    rewrite copyBtn_click_run. reflexivity.
  - destruct (in_flight w); simpl; [reflexivity|].
    rewrite copyBtn_resume_run. reflexivity.
  - apply contBtn_click_keeps.
  - reflexivity.
Qed.

Lemma run_TARGET (v : variant) (evs : list event) (w : world) :
  TARGET (dom (run v evs w)) = TARGET (dom w).
Proof.
  revert w. induction evs as [|ev evs IH]; intro w; simpl.
  - reflexivity.
  - rewrite IH. apply step_TARGET.
Qed.

(** No event disables the continue button. *)
Lemma step_keeps_enabled (v : variant) (ev : event) (w : world) :
  contBtn_disabled (dom w) = false ->
  contBtn_disabled (dom (step v ev w)) = false.
Proof.
  intro Hen. destruct ev as [b|b| |s]; simpl.
  - destruct (clipboard_write b) eqn:Ho; simpl; try exact Hen.
    rewrite copyBtn_click_run. reflexivity.
  - destruct (in_flight w); simpl; [exact Hen|].
    rewrite copyBtn_resume_run. reflexivity.
  - rewrite (proj2 (proj2 (proj2 (contBtn_click_keeps v (dom w))))). exact Hen.
  - exact Hen.
Qed.

Lemma run_keeps_enabled (v : variant) (evs : list event) (w : world) :
  contBtn_disabled (dom w) = false ->
  contBtn_disabled (dom (run v evs w)) = false.
Proof.
  revert w. induction evs as [|ev evs IH]; intros w Hen; simpl.
  - exact Hen.
  - apply IH, step_keeps_enabled, Hen.
Qed.

(** Without a click on the copy button no write is ever in flight and
    the continue button stays as the page's markup left it. *)
Lemma run_without_copy_click (v : variant) (evs : list event) (w : world) :
  existsb is_copy_click evs = false ->
  in_flight w = 0%nat ->
  contBtn_disabled (dom (run v evs w)) = contBtn_disabled (dom w) /\
  in_flight (run v evs w) = 0%nat.
Proof.
  revert w. induction evs as [|ev evs IH]; intros w Hno Hfl; simpl.
  - split; [reflexivity | exact Hfl].
  - simpl in Hno. apply orb_false_iff in Hno. destruct Hno as [Hev Hno].
    destruct ev as [b|b| |s]; simpl in Hev; try discriminate.
    + simpl. rewrite Hfl. apply IH; assumption.
    + destruct (IH (step v ContinueClick w) Hno Hfl) as [Hd Hf].
      split; [|exact Hf]. rewrite Hd. simpl.
      apply contBtn_click_keeps.
    + destruct (IH (step v (UserEdits s) w) Hno Hfl) as [Hd Hf].
      split; [|exact Hf]. rewrite Hd. reflexivity.
Qed.

(** C5: on a page whose continue button starts disabled, at every point
    of every sequence of copy clicks, settling writes, continue clicks and
    edits: if the continue button is enabled there, a click on the copy
    button has occurred before, and the button is still enabled after
    whatever follows. *)
Theorem continue_enabled_only_after_copy (v : variant) (p : page)
        (pre post : list event) :
  contBtn_disabled p = true ->
  contBtn_disabled (dom (run v pre (initial p))) = false ->
  existsb is_copy_click pre = true /\
  contBtn_disabled (dom (run v (pre ++ post) (initial p))) = false.
Proof.
  intros Hinit Hen. split.
  - destruct (existsb is_copy_click pre) eqn:Hcopy; [reflexivity|].
    destruct (run_without_copy_click v pre (initial p) Hcopy eq_refl) as [Hd _].
    simpl in Hd. congruence.
  - rewrite run_app. apply run_keeps_enabled, Hen.
Qed.

Lemma continue_enabled_only_after_copy_witness :
  (contBtn_disabled (page_with (JString (lit "")) (lit "")) = true /\
   contBtn_disabled
     (dom (run Part_000
             [UserEdits (lit "12345"); CopyClick (mkBrowser Resolved true);
              Settles (mkBrowser Resolved true)]
             (initial (page_with (JString (lit "")) (lit "")))))
   = false) /\
  existsb is_copy_click
    [UserEdits (lit "12345"); CopyClick (mkBrowser Resolved true);
     Settles (mkBrowser Resolved true)] = true /\
  contBtn_disabled
    (dom (run Part_000
            ([UserEdits (lit "12345"); CopyClick (mkBrowser Resolved true);
              Settles (mkBrowser Resolved true)]
               ++ [CopyClick (mkBrowser Absent false); ContinueClick])
            (initial (page_with (JString (lit "")) (lit "")))))
  = false.
Proof.
  split; [split; reflexivity|].
  apply (continue_enabled_only_after_copy Part_000
           (page_with (JString (lit "")) (lit ""))); reflexivity.
Defined.

Example continue_still_disabled_while_write_in_flight :
  contBtn_disabled
    (dom (run Id_js [CopyClick (mkBrowser Resolved true); ContinueClick]
            (initial (page_with (JString (lit "")) (lit "12345")))))
  = true.
Proof. reflexivity. Qed.

(** A continue click right after an edit uses the edited text. *)
Lemma continue_after_edit (v : variant) (w : world) (T s e : jsstring) :
  TARGET (dom w) = JString T ->
  encodeURIComponent s = Normal e ->
  location_href (dom (run v [UserEdits s; ContinueClick] w))
  = Some (T ++ separator T ++ lit "discord_id=" ++ e).
Proof.
  intros HT He. simpl.
  rewrite (contBtn_click_string v (edit s (dom w)) T HT). simpl.
  rewrite He. reflexivity.
Qed.

(** A copy click hands the browser the text the field holds at the click. *)
Lemma copy_click_reads_field (v : variant) (b : browser) (w : world) :
  api_present (clipboard_write b) = true ->
  calls (step v (CopyClick b) w)
  = calls w ++ [WriteText (didInput_value (dom w))].
Proof.
  intro Hp. simpl.
  destruct (clipboard_write b); [reflexivity | reflexivity |].
  discriminate Hp.
Qed.

(** C7: both handlers read the field when their own click happens.
    Whatever happened on the page before, a copy click (with the Clipboard
    API present) writes the text the field holds at that click; and if,
    after it and after anything else, the user edits the field to [s] and
    clicks continue, the destination carries the encoding of [s], not of
    the text that was copied. *)
Theorem handlers_read_field_live (v : variant) (p : page) (b : browser)
        (before between : list event) (T s e : jsstring) :
  TARGET p = JString T ->
  api_present (clipboard_write b) = true ->
  encodeURIComponent s = Normal e ->
  calls (run v (before ++ [CopyClick b]) (initial p))
  = calls (run v before (initial p))
      ++ [WriteText (didInput_value (dom (run v before (initial p))))] /\
  location_href
    (dom (run v (before ++ CopyClick b :: between
                   ++ [UserEdits s; ContinueClick]) (initial p)))
  = Some (T ++ separator T ++ lit "discord_id=" ++ e).
Proof.
  intros HT Hp He. split.
  - rewrite run_app. simpl run. apply copy_click_reads_field, Hp.
  - rewrite run_app.
    change (CopyClick b :: between ++ [UserEdits s; ContinueClick])
      with ((CopyClick b :: between) ++ [UserEdits s; ContinueClick]).
    rewrite run_app.
    apply continue_after_edit; [|exact He].
    rewrite !run_TARGET. exact HT.
Qed.

Lemma handlers_read_field_live_witness :
  (TARGET (page_with (JString (lit "https://example.com/welcome")) (lit ""))
   = JString (lit "https://example.com/welcome") /\
   api_present (clipboard_write (mkBrowser Resolved true)) = true /\
   encodeURIComponent (lit "98765") = Normal (lit "98765")) /\
  calls (run Id_js ([UserEdits (lit "12345")] ++ [CopyClick (mkBrowser Resolved true)])
           (initial (page_with (JString (lit "https://example.com/welcome"))
                               (lit ""))))
  = calls (run Id_js [UserEdits (lit "12345")]
             (initial (page_with (JString (lit "https://example.com/welcome"))
                                 (lit ""))))
      ++ [WriteText
            (didInput_value
               (dom (run Id_js [UserEdits (lit "12345")]
                       (initial (page_with
                                   (JString (lit "https://example.com/welcome"))
                                   (lit ""))))))] /\
  location_href
    (dom (run Id_js
            ([UserEdits (lit "12345")]
               ++ CopyClick (mkBrowser Resolved true)
               :: [Settles (mkBrowser Resolved true)]
               ++ [UserEdits (lit "98765"); ContinueClick])
            (initial (page_with (JString (lit "https://example.com/welcome"))
                                (lit "")))))
  = Some (lit "https://example.com/welcome"
            ++ separator (lit "https://example.com/welcome")
            ++ lit "discord_id=" ++ lit "98765").
Proof.
  split; [repeat split; reflexivity|].
  apply (handlers_read_field_live Id_js
           (page_with (JString (lit "https://example.com/welcome")) (lit ""))
           (mkBrowser Resolved true)
           [UserEdits (lit "12345")] [Settles (mkBrowser Resolved true)]
           (lit "https://example.com/welcome") (lit "98765") (lit "98765"));
    reflexivity.
Defined.

Example copied_and_sent_values_differ :
  run Id_js
    [UserEdits (lit "12345"); CopyClick (mkBrowser Resolved true);
     Settles (mkBrowser Resolved true); UserEdits (lit "98765"); ContinueClick]
    (initial (page_with (JString (lit "https://example.com/welcome")) (lit "")))
  = mkWorld
      (mkPage (JString (lit "https://example.com/welcome")) (lit "98765")
              (lit "Copied!") false
              (Some (lit "https://example.com/welcome?discord_id=98765")))
      0
      [WriteText (lit "12345")].
Proof. reflexivity. Qed.

(* ------------------------------------------------------------------ *)
(** ** How the continue click can end *)

(** The only exception of [encodeURIComponent] is the URIError. *)
Lemma encodeURIComponent_throws_URIError (s : jsstring) (x : exn) :
  encodeURIComponent s = Throw x -> x = URIError.
Proof.
  intro He. destruct (isWellFormed s) eqn:Hwf.
  - destruct (encodeURIComponent_well_formed s Hwf) as [e He']. congruence.
  - rewrite (encodeURIComponent_ill_formed s Hwf) in He. congruence.
Qed.

(** With a string for [TARGET] the click never ends in a TypeError. *)
Lemma contBtn_click_string_no_TypeError (v : variant) (st : page) (T : jsstring) :
  TARGET st = JString T ->
  completion_of (contBtn_click v st) <> Throw TypeError.
Proof.
  intro HT. rewrite (contBtn_click_string v st T HT).
  destruct (encodeURIComponent (didInput_value st)) as [e|x] eqn:He;
    unfold completion_of; simpl; [discriminate|].
  rewrite (encodeURIComponent_throws_URIError _ _ He). discriminate.
Qed.

(** The continue click makes no browser call. *)
Lemma contBtn_click_no_calls (v : variant) (st : page) :
  calls_of (contBtn_click v st) = [].
Proof.
  destruct (TARGET st) as [|T] eqn:HT.
  - rewrite (contBtn_click_null v st HT). reflexivity.
  - rewrite (contBtn_click_string v st T HT).
    destruct (encodeURIComponent (didInput_value st)); reflexivity.
Qed.

(* ------------------------------------------------------------------ *)
(** ** Resolving [TARGET] *)

(** X1: [src/unnamed/part_000] never resolves [TARGET] to null: with a current
    script it is the attribute's value, or the empty string when the
    attribute is missing; so its continue click never fails with a
    TypeError. *)
Theorem part_000_TARGET_never_null (doc : document) (st : page) :
  Normal (TARGET st) = Part000.resolve_TARGET doc ->
  (exists el,
      currentScript doc = Some el /\
      TARGET st = JString (match data_target el with
                           | Some s => s
                           | None => lit ""
                           end)) /\
  completion_of (contBtn_click Part_000 st) <> Throw TypeError.
Proof.
  unfold Part000.resolve_TARGET, getAttribute_data_target.
  destruct (currentScript doc) as [el|]; [|discriminate].
  intro H. injection H as H.
  assert (HT : TARGET st = JString (match data_target el with
                                    | Some s => s | None => lit "" end)).
  { rewrite H. destruct (data_target el) as [[|c s]|]; reflexivity. }
  split; [exists el; split; [reflexivity | exact HT]|].
  exact (contBtn_click_string_no_TypeError Part_000 st _ HT).
Qed.

Lemma part_000_TARGET_never_null_witness :
  Normal (TARGET (page_with (JString (lit "")) (lit "xyz")))
  = Part000.resolve_TARGET document_part_000 /\
  (exists el,
      currentScript document_part_000 = Some el /\
      TARGET (page_with (JString (lit "")) (lit "xyz"))
      = JString (match data_target el with
                 | Some s => s
                 | None => lit ""
                 end)) /\
  completion_of (contBtn_click Part_000 (page_with (JString (lit "")) (lit "xyz")))
  <> Throw TypeError.
Proof.
  split; [reflexivity|].
  apply (part_000_TARGET_never_null document_part_000
           (page_with (JString (lit "")) (lit "xyz"))).
  reflexivity.
Defined.

(** X2: In [src/Id.js] the continue click fails with a TypeError exactly when
    a script tag was found (the current script, else the selector's match)
    and that tag has no [data-target] attribute. *)
Theorem Id_js_TypeError_iff_attribute_missing (doc : document) (st : page) :
  TARGET st = IdJs.resolve_TARGET doc ->
  (completion_of (contBtn_click Id_js st) = Throw TypeError <->
   exists el,
     or_else (currentScript doc) (querySelector_script_id_js doc) = Some el /\
     data_target el = None).
Proof.
  unfold IdJs.resolve_TARGET, getAttribute_data_target. intro HT.
  destruct (or_else (currentScript doc) (querySelector_script_id_js doc))
    as [el|] eqn:Htag.
  - destruct (data_target el) as [s|] eqn:Hattr.
    + split.
      * intro Hx. destruct (contBtn_click_string_no_TypeError Id_js st s HT Hx).
      * intros [el' [Hel Hnone]]. injection Hel as <-. congruence.
    + rewrite (contBtn_click_null Id_js st HT). split.
      * intros _. exists el. split; [reflexivity | exact Hattr].
      * intros _. reflexivity.
  - split.
    + intro Hx.
      destruct (contBtn_click_string_no_TypeError Id_js st (lit "") HT Hx).
    + intros [el' [Hel _]]. discriminate.
Qed.

Lemma Id_js_TypeError_iff_attribute_missing_witness :
  TARGET (page_with JNull (lit "xyz")) = IdJs.resolve_TARGET document_Id_js /\
  (completion_of (contBtn_click Id_js (page_with JNull (lit "xyz")))
   = Throw TypeError <->
   exists el,
     or_else (currentScript document_Id_js)
             (querySelector_script_id_js document_Id_js) = Some el /\
     data_target el = None).
Proof.
  split; [reflexivity|].
  apply (Id_js_TypeError_iff_attribute_missing document_Id_js
           (page_with JNull (lit "xyz"))).
  reflexivity.
Defined.

(** X3: When the script tag a variant reads its configuration from (for
    [src/Id.js] the current script or, failing that, the selector's match;
    for [src/unnamed/part_000] the current script) carries a [data-target]
    attribute, both variants resolve [TARGET] to its value, empty or not:
    they differ only when the attribute is missing. *)
Theorem variants_resolve_same_TARGET (doc_Id_js doc_part_000 : document)
        (el : script_element) (s : jsstring) :
  or_else (currentScript doc_Id_js) (querySelector_script_id_js doc_Id_js)
  = Some el ->
  currentScript doc_part_000 = Some el ->
  data_target el = Some s ->
  IdJs.resolve_TARGET doc_Id_js = JString s /\
  Part000.resolve_TARGET doc_part_000 = Normal (JString s).
Proof.
  intros Htag Hcs Hattr.
  unfold IdJs.resolve_TARGET, Part000.resolve_TARGET, getAttribute_data_target.
  rewrite Htag, Hcs, Hattr. split; [reflexivity|].
  destruct s; reflexivity.
Qed.

Lemma variants_resolve_same_TARGET_witness :
  (or_else
     (currentScript
        (mkDocument None
           (Some (mkScript (Some (lit "https://example.com/welcome"))))))
     (querySelector_script_id_js
        (mkDocument None
           (Some (mkScript (Some (lit "https://example.com/welcome"))))))
   = Some (mkScript (Some (lit "https://example.com/welcome"))) /\
   currentScript
     (mkDocument (Some (mkScript (Some (lit "https://example.com/welcome"))))
                 None)
   = Some (mkScript (Some (lit "https://example.com/welcome"))) /\
   data_target (mkScript (Some (lit "https://example.com/welcome")))
   = Some (lit "https://example.com/welcome")) /\
  IdJs.resolve_TARGET
    (mkDocument None
       (Some (mkScript (Some (lit "https://example.com/welcome")))))
  = JString (lit "https://example.com/welcome") /\
  Part000.resolve_TARGET
    (mkDocument (Some (mkScript (Some (lit "https://example.com/welcome"))))
                None)
  = Normal (JString (lit "https://example.com/welcome")).
Proof.
  split; [repeat split; reflexivity|].
  apply (variants_resolve_same_TARGET
           (mkDocument None
              (Some (mkScript (Some (lit "https://example.com/welcome")))))
           (mkDocument
              (Some (mkScript (Some (lit "https://example.com/welcome")))) None)
           (mkScript (Some (lit "https://example.com/welcome")))
           (lit "https://example.com/welcome")); reflexivity.
Defined.

(* ------------------------------------------------------------------ *)
(** ** More on the continue handler *)

(** X5: The continue click ends in exactly one of three ways, decided by
    [TARGET] and the field alone: a TypeError when [TARGET] is null, a
    URIError when the field holds an unpaired surrogate, and normally
    otherwise.  It makes no browser call, and when it throws it has
    assigned nothing: the page is as before. *)
Theorem continue_click_completion (v : variant) (st : page) :
  completion_of (contBtn_click v st) =
    match TARGET st with
    | JNull => Throw TypeError
    | JString _ =>
        if isWellFormed (didInput_value st) then Normal tt else Throw URIError
    end /\
  calls_of (contBtn_click v st) = [] /\
  (completion_of (contBtn_click v st) = Normal tt \/
   page_after (contBtn_click v st) = st).
Proof.
  destruct (TARGET st) as [|T] eqn:HT.
  - rewrite (contBtn_click_null v st HT). repeat split. right. reflexivity.
  - rewrite (contBtn_click_string v st T HT).
    destruct (isWellFormed (didInput_value st)) eqn:Hwf.
    + destruct (encodeURIComponent_well_formed _ Hwf) as [e He]. rewrite He.
      repeat split. left. reflexivity.
    + rewrite (encodeURIComponent_ill_formed _ Hwf).
      repeat split. right. reflexivity.
Qed.

(** X6: The continue handler has no guard of its own: whether the continue
    button is disabled and what the copy button shows change neither how
    the click ends nor the destination it requests. *)
Theorem continue_click_ignores_buttons (v : variant) (st : page)
        (label : jsstring) (disabled : bool) :
  completion_of
    (contBtn_click v
       (mkPage (TARGET st) (didInput_value st) label disabled (location_href st)))
  = completion_of (contBtn_click v st) /\
  location_href
    (page_after
       (contBtn_click v
          (mkPage (TARGET st) (didInput_value st) label disabled
                  (location_href st))))
  = location_href (page_after (contBtn_click v st)).
Proof.
  destruct (TARGET st) as [|T] eqn:HT.
  - rewrite (contBtn_click_null v st HT).
    rewrite (contBtn_click_null v
               (mkPage JNull (didInput_value st) label disabled
                       (location_href st)) eq_refl).
    split; reflexivity.
  - rewrite (contBtn_click_string v st T HT).
    rewrite (contBtn_click_string v
               (mkPage (JString T) (didInput_value st) label disabled
                       (location_href st)) T eq_refl).
    simpl. destruct (encodeURIComponent (didInput_value st));
      split; reflexivity.
Qed.

(** X7: A second continue click changes nothing more. *)
Theorem continue_click_idempotent (v : variant) (st : page) :
  contBtn_click v (page_after (contBtn_click v st)) =
  (completion_of (contBtn_click v st), page_after (contBtn_click v st), []).
Proof.
  destruct (TARGET st) as [|T] eqn:HT.
  - rewrite (contBtn_click_null v st HT). unfold page_after. simpl.
    rewrite (contBtn_click_null v st HT). reflexivity.
  - rewrite (contBtn_click_string v st T HT).
    destruct (encodeURIComponent (didInput_value st)) as [e|x] eqn:He;
      unfold page_after, completion_of; simpl.
    + rewrite (contBtn_click_string v (navigated _ st) T HT). simpl.
      rewrite He. reflexivity.
    + rewrite (contBtn_click_string v st T HT), He. reflexivity.
Qed.

(** X8: On a page whose continue button is enabled, so that a click on it
    reaches its listener, a completed copy click and a continue click
    commute: either order leaves the same page, the copy handler makes the
    same browser calls, and the continue click ends the same way with the
    same destination. *)
Theorem copy_and_continue_commute (v : variant) (b : browser) (st : page) :
  contBtn_disabled st = false ->
  page_after (copyBtn_click v b (page_after (contBtn_clicked v st)))
  = page_after (contBtn_clicked v (page_after (copyBtn_click v b st))) /\
  calls_of (copyBtn_click v b (page_after (contBtn_clicked v st)))
  = calls_of (copyBtn_click v b st) /\
  completion_of (contBtn_clicked v (page_after (copyBtn_click v b st)))
  = completion_of (contBtn_clicked v st).
Proof.
  intro Hen. unfold contBtn_clicked. rewrite Hen.
  rewrite !copyBtn_click_run. unfold page_after, calls_of, completion_of.
  cbn [fst snd contBtn_disabled copied_page].
  destruct (TARGET st) as [|T] eqn:HT.
  - rewrite (contBtn_click_null v st HT).
    rewrite (contBtn_click_null v (copied_page _ st) HT).
    repeat split.
  - rewrite (contBtn_click_string v st T HT).
    rewrite (contBtn_click_string v (copied_page _ st) T HT).
    cbn [didInput_value copied_page].
    destruct (encodeURIComponent (didInput_value st)); repeat split.
Qed.

Lemma copy_and_continue_commute_witness :
  contBtn_disabled welcome_page = false /\
  page_after
    (copyBtn_click Id_js (mkBrowser Rejected true)
       (page_after (contBtn_clicked Id_js welcome_page)))
  = page_after
      (contBtn_clicked Id_js
         (page_after (copyBtn_click Id_js (mkBrowser Rejected true)
                        welcome_page))) /\
  calls_of
    (copyBtn_click Id_js (mkBrowser Rejected true)
       (page_after (contBtn_clicked Id_js welcome_page)))
  = calls_of (copyBtn_click Id_js (mkBrowser Rejected true) welcome_page) /\
  completion_of
    (contBtn_clicked Id_js
       (page_after (copyBtn_click Id_js (mkBrowser Rejected true)
                      welcome_page)))
  = completion_of (contBtn_clicked Id_js welcome_page).
Proof.
  split; [reflexivity|].
  apply (copy_and_continue_commute Id_js (mkBrowser Rejected true)
           welcome_page).
  reflexivity.
Defined.

(** On the start page, with the continue button still disabled, the order
    matters: a continue click made first reaches no listener. *)
Example order_matters_while_disabled :
  location_href
    (page_after
       (copyBtn_click Id_js (mkBrowser Resolved true)
          (page_after
             (contBtn_clicked Id_js
                (page_with (JString (lit "https://example.com/welcome"))
                           (lit "12345"))))))
  = None /\
  location_href
    (page_after
       (contBtn_clicked Id_js
          (page_after
             (copyBtn_click Id_js (mkBrowser Resolved true)
                (page_with (JString (lit "https://example.com/welcome"))
                           (lit "12345"))))))
  = Some (lit "https://example.com/welcome?discord_id=12345").
Proof. split; reflexivity. Qed.

(* ------------------------------------------------------------------ *)
(** ** What the encoded parameter can and cannot contain *)

Lemma escape_unit_is_query_safe (x : code_unit) :
  is_escape_unit x -> is_query_safe x = true.
Proof.
  unfold is_query_safe. intros [->|Hhex]; [reflexivity|].
  assert (Hall : forallb is_unescaped (lit "0123456789ABCDEF") = true)
    by reflexivity.
  rewrite forallb_forall in Hall. rewrite (Hall x Hhex). reflexivity.
Qed.

Lemma escape_query_safe (cp : Z) : forallb is_query_safe (escape cp) = true.
Proof.
  apply forallb_forall. intros x Hx. apply escape_unit_is_query_safe.
  exact (proj1 (Forall_forall _ _) (escape_units cp) x Hx).
Qed.

(** Whatever [encodeURIComponent] returns consists of unescaped code units
    and [%] only. *)
Lemma encodeURIComponent_query_safe (s : jsstring) :
  forall e, encodeURIComponent s = Normal e -> forallb is_query_safe e = true.
Proof.
  induction s as [|c|c d s IH1 IH2] using jsstring_pair_ind; intros e He.
  - injection He as <-. reflexivity.
  - rewrite encodeURIComponent_cons in He.
    destruct (is_unescaped c) eqn:Hu.
    + injection He as <-. simpl. unfold is_query_safe. rewrite Hu. reflexivity.
    + destruct (is_high_surrogate c); [discriminate|].
      destruct (is_low_surrogate c); [discriminate|].
      injection He as <-. rewrite app_nil_r. apply escape_query_safe.
  - rewrite encodeURIComponent_cons in He.
    destruct (is_unescaped c) eqn:Hu.
    + destruct (encodeURIComponent (d :: s)) as [r|]; [|discriminate].
      injection He as <-. simpl. unfold is_query_safe at 1. rewrite Hu.
      exact (IH2 r eq_refl).
    + destruct (is_high_surrogate c).
      * destruct (is_low_surrogate d); [|discriminate].
        destruct (encodeURIComponent s) as [r|]; [|discriminate].
        injection He as <-. rewrite forallb_app, escape_query_safe.
        exact (IH1 r eq_refl).
      * destruct (is_low_surrogate c); [discriminate|].
        destruct (encodeURIComponent (d :: s)) as [r|]; [|discriminate].
        injection He as <-. rewrite forallb_app, escape_query_safe.
        exact (IH2 r eq_refl).
Qed.

(** A code unit that is not query-safe does not occur in an encoding. *)
Lemma unsafe_unit_not_in_encoding (s e : jsstring) (x : code_unit) :
  encodeURIComponent s = Normal e ->
  is_query_safe x = false ->
  ~ In x e.
Proof.
  intros He Hx Hin.
  pose proof (encodeURIComponent_query_safe s e He) as Hsafe.
  rewrite forallb_forall in Hsafe. rewrite (Hsafe x Hin) in Hx. discriminate.
Qed.

(** A click that completes got its parameter from the encoder. *)
Lemma contBtn_click_completed (v : variant) (st : page) (T : jsstring) :
  TARGET st = JString T ->
  completion_of (contBtn_click v st) = Normal tt ->
  exists e,
    encodeURIComponent (didInput_value st) = Normal e /\
    location_href (page_after (contBtn_click v st))
    = Some (T ++ separator T ++ lit "discord_id=" ++ e).
Proof.
  intros HT. rewrite (contBtn_click_string v st T HT).
  destruct (encodeURIComponent (didInput_value st)) as [e|x];
    [|discriminate].
  intros _. exists e. split; reflexivity.
Qed.

(** X9: The value cannot break out of its parameter: in every destination a
    completed continue click requests, what follows [discord_id=] consists
    of unescaped code units and [%] only, so it holds no [&], [#], [=],
    [?], [+], [/] and no space, whatever the field held. *)
Theorem destination_parameter_is_query_safe (v : variant) (st : page)
        (T : jsstring) :
  TARGET st = JString T ->
  completion_of (contBtn_click v st) = Normal tt ->
  exists e,
    location_href (page_after (contBtn_click v st))
    = Some (T ++ separator T ++ lit "discord_id=" ++ e) /\
    forallb is_query_safe e = true /\
    forallb (fun x => negb (existsb (Z.eqb x) e)) (lit "&#=?+/ ") = true.
Proof.
  intros HT Hdone.
  destruct (contBtn_click_completed v st T HT Hdone) as [e [He Hhref]].
  exists e. split; [exact Hhref|].
  split; [exact (encodeURIComponent_query_safe _ e He)|].
  apply forallb_forall. intros x Hx. apply negb_true_iff.
  destruct (existsb (Z.eqb x) e) eqn:Hex; [|reflexivity].
  apply existsb_exists in Hex. destruct Hex as [y [Hy Hxy]].
  apply Z.eqb_eq in Hxy. subst y.
  assert (Hunsafe : forallb (fun x => negb (is_query_safe x)) (lit "&#=?+/ ") = true)
    by reflexivity.
  rewrite forallb_forall in Hunsafe. specialize (Hunsafe x Hx).
  apply negb_true_iff in Hunsafe.
  destruct (unsafe_unit_not_in_encoding _ e x He Hunsafe Hy).
Qed.

Lemma destination_parameter_is_query_safe_witness :
  (TARGET (page_with (JString (lit "https://example.com/welcome?ref=abc"))
                     (lit "1&admin=1#x y"))
   = JString (lit "https://example.com/welcome?ref=abc") /\
   completion_of
     (contBtn_click Id_js
        (page_with (JString (lit "https://example.com/welcome?ref=abc"))
                   (lit "1&admin=1#x y")))
   = Normal tt) /\
  exists e,
    location_href
      (page_after
         (contBtn_click Id_js
            (page_with (JString (lit "https://example.com/welcome?ref=abc"))
                       (lit "1&admin=1#x y"))))
    = Some (lit "https://example.com/welcome?ref=abc"
              ++ separator (lit "https://example.com/welcome?ref=abc")
              ++ lit "discord_id=" ++ e) /\
    forallb is_query_safe e = true /\
    forallb (fun x => negb (existsb (Z.eqb x) e)) (lit "&#=?+/ ") = true.
Proof.
  split; [split; reflexivity|].
  apply (destination_parameter_is_query_safe Id_js
           (page_with (JString (lit "https://example.com/welcome?ref=abc"))
                      (lit "1&admin=1#x y"))
           (lit "https://example.com/welcome?ref=abc")); reflexivity.
Defined.

Example destination_injection_attempt :
  location_href
    (page_after
       (contBtn_click Part_000
          (page_with (JString (lit "https://example.com/welcome?ref=abc"))
                     (lit "1&admin=1#x y"))))
  = Some (lit "https://example.com/welcome?ref=abc&discord_id=1%26admin%3D1%23x%20y").
Proof. reflexivity. Qed.

Lemma contains_question_mark_count (T : jsstring) :
  contains_question_mark T = negb (Nat.eqb (count_occ Z.eq_dec T 63) 0).
Proof.
  unfold contains_question_mark.
  induction T as [|c T IH]; [reflexivity|].
  cbn [existsb count_occ].
  destruct (Z.eq_dec c 63) as [->|Hne].
  - reflexivity.
  - rewrite IH.
    assert (Hc : (63 =? c) = false) by (apply Z.eqb_neq; congruence).
    rewrite Hc. reflexivity.
Qed.

(** X10: The handler appends a [?] only when the target holds none, and
    the encoded parameter never holds one: the number of [?] characters in
    the destination is the number in the target, or one if the target has
    none; so the destination always holds a [?].  (Where that [?] falls in
    the URL is the target's business: after a [#] it lands in the
    fragment.) *)
Theorem destination_question_marks (v : variant) (st : page)
        (T url : jsstring) :
  TARGET st = JString T ->
  completion_of (contBtn_click v st) = Normal tt ->
  location_href (page_after (contBtn_click v st)) = Some url ->
  count_occ Z.eq_dec url 63 = Nat.max 1 (count_occ Z.eq_dec T 63) /\
  contains_question_mark url = true.
Proof.
  intros HT Hdone Hurl.
  destruct (contBtn_click_completed v st T HT Hdone) as [e [He Hhref]].
  rewrite Hhref in Hurl. injection Hurl as <-.
  assert (Hcount : count_occ Z.eq_dec
                     (T ++ separator T ++ lit "discord_id=" ++ e) 63
                   = Nat.max 1 (count_occ Z.eq_dec T 63)).
  { rewrite !count_occ_app.
    assert (He0 : count_occ Z.eq_dec e 63 = 0%nat).
    { apply count_occ_not_In.
      apply (unsafe_unit_not_in_encoding _ e 63 He). reflexivity. }
    change (@count_occ code_unit) with (@count_occ Z).
    rewrite He0. unfold separator. rewrite contains_question_mark_count.
    destruct (count_occ Z.eq_dec T 63) as [|n]; simpl; lia. }
  split; [exact Hcount|].
  rewrite contains_question_mark_count.
  apply negb_true_iff, Nat.eqb_neq. intro Hzero.
  assert (Hpos : count_occ Z.eq_dec
                   (T ++ separator T ++ lit "discord_id=" ++ e) 63 = 0%nat)
    by exact Hzero.
  rewrite Hcount in Hpos. lia.
Qed.

Lemma destination_question_marks_witness :
  (TARGET welcome_page = JString (lit "https://example.com/welcome") /\
   completion_of (contBtn_click Id_js welcome_page) = Normal tt /\
   location_href (page_after (contBtn_click Id_js welcome_page))
   = Some (lit "https://example.com/welcome?discord_id=12345")) /\
  count_occ Z.eq_dec (lit "https://example.com/welcome?discord_id=12345") 63
  = Nat.max 1 (count_occ Z.eq_dec (lit "https://example.com/welcome") 63) /\
  contains_question_mark (lit "https://example.com/welcome?discord_id=12345")
  = true.
Proof.
  split; [repeat split; reflexivity|].
  apply (destination_question_marks Id_js welcome_page
           (lit "https://example.com/welcome")
           (lit "https://example.com/welcome?discord_id=12345")); reflexivity.
Defined.

Example destination_after_fragment :
  location_href
    (page_after
       (contBtn_click Id_js
          (page_with (JString (lit "https://example.com/welcome#top"))
                     (lit "12345"))))
  = Some (lit "https://example.com/welcome#top?discord_id=12345").
Proof. reflexivity. Qed.

Lemma encodeURIComponent_unescaped (s : jsstring) :
  forallb is_unescaped s = true -> encodeURIComponent s = Normal s.
Proof.
  induction s as [|c s IH]; intro H.
  - reflexivity.
  - simpl in H. apply andb_true_iff in H. destruct H as [Hc Hs].
    rewrite encodeURIComponent_cons, Hc, (IH Hs). reflexivity.
Qed.

(** X11: An identifier made of letters, digits and the marks [_-.!~*'()] goes
    into the destination verbatim: nothing is escaped and the click always
    completes. *)
Theorem plain_identifier_sent_verbatim (v : variant) (st : page) (T : jsstring) :
  TARGET st = JString T ->
  forallb is_unescaped (didInput_value st) = true ->
  contBtn_click v st =
  (Normal tt,
   navigated (T ++ separator T ++ lit "discord_id=" ++ didInput_value st) st,
   []).
Proof.
  intros HT Hplain.
  rewrite (contBtn_click_string v st T HT).
  rewrite (encodeURIComponent_unescaped _ Hplain). reflexivity.
Qed.

Lemma plain_identifier_sent_verbatim_witness :
  (TARGET welcome_ref_page = JString (lit "https://example.com/welcome?ref=abc") /\
   forallb is_unescaped (didInput_value welcome_ref_page) = true) /\
  contBtn_click Part_000 welcome_ref_page =
  (Normal tt,
   navigated (lit "https://example.com/welcome?ref=abc"
                ++ separator (lit "https://example.com/welcome?ref=abc")
                ++ lit "discord_id=" ++ didInput_value welcome_ref_page)
             welcome_ref_page,
   []).
Proof.
  split; [split; reflexivity|].
  apply (plain_identifier_sent_verbatim Part_000 welcome_ref_page
           (lit "https://example.com/welcome?ref=abc")); reflexivity.
Defined.

(* ------------------------------------------------------------------ *)
(** ** More on the page's life *)

Lemma step_label (v : variant) (ev : event) (w : world) :
  copyBtn_textContent (dom (step v ev w)) = copyBtn_textContent (dom w) \/
  copyBtn_textContent (dom (step v ev w)) = success_label v \/
  copyBtn_textContent (dom (step v ev w)) = fallback_label v.
Proof.
  destruct ev as [b|b| |s]; simpl.
  - destruct (clipboard_write b) eqn:Ho; simpl; auto.
    rewrite copyBtn_click_run, Ho. simpl. auto.
  - destruct (in_flight w); simpl; auto.
    rewrite copyBtn_resume_run. simpl.
    destruct (clipboard_write b); simpl; auto.
  - left. apply contBtn_click_keeps.
  - auto.
Qed.

(** X13: Through any sequence of clicks, settling writes and edits the copy
    button shows the label it started with or one of the variant's two
    strings: the scripts never put anything else there, in particular
    nothing taken from the field. *)
Theorem label_stays_in_range (v : variant) (evs : list event) (w : world) :
  copyBtn_textContent (dom (run v evs w)) = copyBtn_textContent (dom w) \/
  copyBtn_textContent (dom (run v evs w)) = success_label v \/
  copyBtn_textContent (dom (run v evs w)) = fallback_label v.
Proof.
  revert w. induction evs as [|ev evs IH]; intro w; simpl.
  - auto.
  - destruct (IH (step v ev w)) as [H|[H|H]]; auto.
    rewrite H. apply step_label.
Qed.

Lemma step_writes (v : variant) (ev : event) (w : world) :
  List.length (filter is_write (calls (step v ev w)))
  = (List.length (filter is_write (calls w))
     + if is_issuing_click ev then 1 else 0)%nat.
Proof.
  destruct ev as [b|b| |s]; simpl.
  - destruct (clipboard_write b) eqn:Ho; simpl;
      rewrite ?copyBtn_click_run, ?Ho; unfold calls_of; simpl;
      rewrite filter_app, length_app; simpl; try reflexivity.
    destruct v; simpl; lia.
  - destruct (in_flight w); simpl; [lia|].
    rewrite copyBtn_resume_run. unfold calls_of. simpl.
    rewrite filter_app, length_app.
    destruct (clipboard_write b), v; simpl; lia.
  - rewrite contBtn_click_no_calls, app_nil_r. lia.
  - lia.
Qed.

Lemma step_in_flight (v : variant) (ev : event) (w : world) :
  (in_flight (step v ev w)
   <= in_flight w + if is_issuing_click ev then 1 else 0)%nat.
Proof.
  destruct ev as [b|b| |s]; simpl.
  - destruct (clipboard_write b); simpl; lia.
  - destruct (in_flight w) eqn:Hfl; simpl; lia.
  - lia.
  - lia.
Qed.

(** X14: The scripts write to the clipboard once per click on the copy button
    made with the Clipboard API present, and never otherwise: not when a
    write settles, not on a continue click, not on an edit, not on the
    fallback path.  No more writes are in flight than such clicks were made. *)
Theorem one_clipboard_write_per_copy_click (v : variant) (evs : list event)
        (w : world) :
  List.length (filter is_write (calls (run v evs w)))
  = (List.length (filter is_write (calls w))
     + List.length (filter is_issuing_click evs))%nat /\
  (in_flight (run v evs w)
   <= in_flight w + List.length (filter is_issuing_click evs))%nat.
Proof.
  revert w. induction evs as [|ev evs IH]; intro w; simpl.
  - split; lia.
  - destruct (IH (step v ev w)) as [Hw Hf].
    pose proof (step_writes v ev w) as Hsw.
    pose proof (step_in_flight v ev w) as Hsf.
    destruct (is_issuing_click ev); simpl; split; lia.
Qed.

(** X15: Until its write settles a copy click has changed nothing on the page:
    the label is as before and the continue button is not yet enabled.
    The button is enabled when the write settles, whichever way. *)
Theorem continue_enabled_when_write_settles (v : variant) (b b' : browser)
        (w : world) :
  api_present (clipboard_write b) = true ->
  dom (step v (CopyClick b) w) = dom w /\
  in_flight (step v (CopyClick b) w) = S (in_flight w) /\
  contBtn_disabled (dom (step v (Settles b') (step v (CopyClick b) w))) = false /\
  copyBtn_textContent (dom (step v (Settles b') (step v (CopyClick b) w)))
  = label_after v (clipboard_write b').
Proof.
  intro Hp.
  assert (Hstart : step v (CopyClick b) w
                   = exec issue_writeText (S (in_flight w)) w).
  { simpl. destruct (clipboard_write b); [reflexivity | reflexivity |].
    discriminate Hp. }
  rewrite Hstart. unfold step, exec. cbn [in_flight dom].
  rewrite copyBtn_resume_run. repeat split.
Qed.

Lemma continue_enabled_when_write_settles_witness :
  api_present (clipboard_write (mkBrowser Resolved true)) = true /\
  dom (step Id_js (CopyClick (mkBrowser Resolved true)) (initial welcome_page))
  = dom (initial welcome_page) /\
  in_flight (step Id_js (CopyClick (mkBrowser Resolved true))
               (initial welcome_page))
  = S (in_flight (initial welcome_page)) /\
  contBtn_disabled
    (dom (step Id_js (Settles (mkBrowser Rejected false))
            (step Id_js (CopyClick (mkBrowser Resolved true))
               (initial welcome_page))))
  = false /\
  copyBtn_textContent
    (dom (step Id_js (Settles (mkBrowser Rejected false))
            (step Id_js (CopyClick (mkBrowser Resolved true))
               (initial welcome_page))))
  = label_after Id_js (clipboard_write (mkBrowser Rejected false)).
Proof.
  split; [reflexivity|].
  apply (continue_enabled_when_write_settles Id_js (mkBrowser Resolved true)
           (mkBrowser Rejected false) (initial welcome_page)).
  reflexivity.
Defined.

(** X16: With several writes in flight the label follows the write that
    settled last, whichever click started it: each settling write sets the
    label by its own outcome and overwrites what was shown. *)
Theorem last_settled_write_sets_label (v : variant) (evs : list event)
        (b : browser) (w : world) :
  Nat.ltb 0 (in_flight (run v evs w)) = true ->
  copyBtn_textContent (dom (run v (evs ++ [Settles b]) w))
  = label_after v (clipboard_write b) /\
  contBtn_disabled (dom (run v (evs ++ [Settles b]) w)) = false /\
  S (in_flight (run v (evs ++ [Settles b]) w)) = in_flight (run v evs w).
Proof.
  intro Hfl. rewrite run_app. simpl.
  destruct (in_flight (run v evs w)) as [|n]; [discriminate Hfl|].
  unfold exec. simpl. rewrite copyBtn_resume_run. repeat split.
Qed.

Lemma last_settled_write_sets_label_witness :
  Nat.ltb 0
    (in_flight
       (run Part_000
          [CopyClick (mkBrowser Rejected true); CopyClick (mkBrowser Resolved true);
           Settles (mkBrowser Resolved true)]
          (initial welcome_page)))
  = true /\
  copyBtn_textContent
    (dom (run Part_000
            ([CopyClick (mkBrowser Rejected true);
              CopyClick (mkBrowser Resolved true);
              Settles (mkBrowser Resolved true)]
               ++ [Settles (mkBrowser Rejected true)])
            (initial welcome_page)))
  = label_after Part_000 (clipboard_write (mkBrowser Rejected true)) /\
  contBtn_disabled
    (dom (run Part_000
            ([CopyClick (mkBrowser Rejected true);
              CopyClick (mkBrowser Resolved true);
              Settles (mkBrowser Resolved true)]
               ++ [Settles (mkBrowser Rejected true)])
            (initial welcome_page)))
  = false /\
  S (in_flight
       (run Part_000
          ([CopyClick (mkBrowser Rejected true);
            CopyClick (mkBrowser Resolved true);
            Settles (mkBrowser Resolved true)]
             ++ [Settles (mkBrowser Rejected true)])
          (initial welcome_page)))
  = in_flight
      (run Part_000
         [CopyClick (mkBrowser Rejected true); CopyClick (mkBrowser Resolved true);
          Settles (mkBrowser Resolved true)]
         (initial welcome_page)).
Proof.
  split; [reflexivity|].
  apply (last_settled_write_sets_label Part_000
           [CopyClick (mkBrowser Rejected true);
            CopyClick (mkBrowser Resolved true);
            Settles (mkBrowser Resolved true)]
           (mkBrowser Rejected true) (initial welcome_page)).
  reflexivity.
Defined.

(* ------------------------------------------------------------------ *)
(** ** Missing elements *)

(** With all three elements found the handlers over looked-up elements
    are the handlers studied above. *)
Lemma handlers_on_all_found (v : variant) (b : browser) (st : page) :
  copyBtn_click_on v all_found b st = copyBtn_click v b st /\
  contBtn_click_on v all_found st = contBtn_click v st.
Proof.
  split.
  - destruct v, (clipboard_write b) eqn:Ho;
      unfold copyBtn_click_on, IdJs_copyBtn_click_on, Part000_copyBtn_click_on,
        copyBtn_click, IdJs.copyBtn_click, Part000.copyBtn_click,
        IdJs.copyBtn_body, Part000.copyBtn_body;
      rewrite Ho; reflexivity.
  - destruct v; reflexivity.
Qed.

(** X17: Which listeners a load leaves bound.  A missing copy button leaves the
    page without any listener, the continue one included; a missing
    continue button leaves the copy listener bound alone; a missing input
    field is not noticed at load.  [src/unnamed/part_000] binds nothing
    when [document.currentScript] is null, which [src/Id.js] does not
    depend on.  A load completes exactly when both buttons are found (and,
    for [src/unnamed/part_000], the current script is known). *)
Theorem listeners_bound_at_load (els : elements) (doc : document) :
  load_listeners (IdJs_load els doc)
  = mkListeners (copyBtn_found els) (copyBtn_found els && contBtn_found els) /\
  load_completion (IdJs_load els doc)
  = (if copyBtn_found els && contBtn_found els
     then Normal tt else Throw TypeError) /\
  load_listeners (Part000_load els doc)
  = match currentScript doc with
    | Some _ =>
        mkListeners (copyBtn_found els) (copyBtn_found els && contBtn_found els)
    | None => mkListeners false false
    end /\
  load_completion (Part000_load els doc)
  = match currentScript doc with
    | Some _ =>
        if copyBtn_found els && contBtn_found els
        then Normal tt else Throw TypeError
    | None => Throw TypeError
    end.
Proof.
  unfold IdJs_load, Part000_load, Part000.resolve_TARGET, bind_listeners.
  destruct (copyBtn_found els), (contBtn_found els), (currentScript doc);
    repeat split.
Qed.

(** X18: With the input field missing, which a load does not notice,
    every click fails: a copy click ends in an uncaught TypeError (the one
    thrown by [didInput.select()] in the catch block) without touching the
    label, the continue button or the clipboard, whatever the Clipboard
    API does; a continue click throws a TypeError without navigating.  The
    script can then never enable the continue button. *)
Theorem clicks_without_input_field (v : variant) (els : elements)
        (b : browser) (st : page) :
  didInput_found els = false ->
  copyBtn_click_on v els b st = (Throw TypeError, st, []) /\
  contBtn_click_on v els st = (Throw TypeError, st, []).
Proof.
  intro Hdid. split.
  - destruct v, (clipboard_write b) eqn:Ho;
      unfold copyBtn_click_on, IdJs_copyBtn_click_on, Part000_copyBtn_click_on,
        await_writeText_on, issue_writeText_on, didInput_value_on,
        didInput_select_on, try_catch, bind;
      rewrite Ho, Hdid; reflexivity.
  - destruct v, (TARGET st) eqn:HT;
      unfold contBtn_click_on, IdJs_contBtn_click_on, Part000_contBtn_click_on,
        didInput_value_on, bind, get_TARGET, lift;
      rewrite HT, Hdid; reflexivity.
Qed.

Lemma clicks_without_input_field_witness :
  didInput_found (mkElements false true true) = false /\
  copyBtn_click_on Id_js (mkElements false true true)
    (mkBrowser Resolved true) welcome_page
  = (Throw TypeError, welcome_page, []) /\
  contBtn_click_on Id_js (mkElements false true true) welcome_page
  = (Throw TypeError, welcome_page, []).
Proof.
  split; [reflexivity|].
  apply (clicks_without_input_field Id_js (mkElements false true true)
           (mkBrowser Resolved true) welcome_page).
  reflexivity.
Defined.

(** X19: With only the continue button missing the copy listener is bound and
    every copy click ends in an uncaught TypeError at [contBtn.disabled].
    [src/Id.js] has set the label by the outcome before that.  In
    [src/unnamed/part_000] the assignment sits inside the [try], so even
    after a successful write the catch block runs: the field is selected
    and the label ends as ['Select & copy']. *)
Theorem copy_click_without_continue_button (v : variant) (els : elements)
        (b : browser) (st : page) :
  didInput_found els = true ->
  copyBtn_found els = true ->
  contBtn_found els = false ->
  completion_of (copyBtn_click_on v els b st) = Throw TypeError /\
  contBtn_disabled (page_after (copyBtn_click_on v els b st))
  = contBtn_disabled st /\
  copyBtn_textContent (page_after (copyBtn_click_on v els b st))
  = match v with
    | Id_js => label_after Id_js (clipboard_write b)
    | Part_000 => Part000.select_and_copy
    end /\
  calls_of (copyBtn_click_on v els b st)
  = issued_calls (clipboard_write b) st
      ++ match v with
         | Id_js => match clipboard_write b with
                    | Resolved => []
                    | _ => [Select; ExecCopy]
                    end
         | Part_000 => [Select]
         end.
Proof.
  intros Hdid Hcopy Hcont.
  destruct v, (clipboard_write b) eqn:Ho;
    unfold copyBtn_click_on, IdJs_copyBtn_click_on, Part000_copyBtn_click_on,
      await_writeText_on, issue_writeText_on, didInput_value_on,
      didInput_select_on, set_copyBtn_textContent_on, set_contBtn_disabled_on,
      try_catch, bind;
    rewrite Ho, Hdid, Hcopy, Hcont; repeat split.
Qed.

Lemma copy_click_without_continue_button_witness :
  (didInput_found (mkElements true true false) = true /\
   copyBtn_found (mkElements true true false) = true /\
   contBtn_found (mkElements true true false) = false) /\
  completion_of
    (copyBtn_click_on Part_000 (mkElements true true false)
       (mkBrowser Resolved true) welcome_page)
  = Throw TypeError /\
  contBtn_disabled
    (page_after
       (copyBtn_click_on Part_000 (mkElements true true false)
          (mkBrowser Resolved true) welcome_page))
  = contBtn_disabled welcome_page /\
  copyBtn_textContent
    (page_after
       (copyBtn_click_on Part_000 (mkElements true true false)
          (mkBrowser Resolved true) welcome_page))
  = Part000.select_and_copy /\
  calls_of
    (copyBtn_click_on Part_000 (mkElements true true false)
       (mkBrowser Resolved true) welcome_page)
  = issued_calls (clipboard_write (mkBrowser Resolved true)) welcome_page
      ++ [Select].
Proof.
  split; [repeat split; reflexivity|].
  apply (copy_click_without_continue_button Part_000
           (mkElements true true false) (mkBrowser Resolved true) welcome_page);
    reflexivity.
Defined.

(* ------------------------------------------------------------------ *)
(** ** The script tag [src/Id.js] reads its configuration from *)

Lemma starts_with_prefix (p s : jsstring) :
  starts_with p s = true <-> exists rest, s = p ++ rest.
Proof.
  revert s. induction p as [|a p IH]; intro s; simpl.
  - split; [intros _; exists s; reflexivity | reflexivity].
  - destruct s as [|b s].
    + split; [discriminate | intros [rest H]; discriminate].
    + rewrite andb_true_iff, Z.eqb_eq, IH. split.
      * intros [-> [rest ->]]. exists rest. reflexivity.
      * intros [rest H]. injection H as -> ->.
        split; [reflexivity | exists rest; reflexivity].
Qed.

Lemma ends_with_suffix (s p : jsstring) :
  ends_with s p = true <-> exists pre, s = pre ++ p.
Proof.
  unfold ends_with. rewrite starts_with_prefix. split.
  - intros [rest H]. exists (rev rest).
    rewrite <- (rev_involutive s), H, rev_app_distr, rev_involutive.
    reflexivity.
  - intros [pre ->]. exists (rev pre). apply rev_app_distr.
Qed.

Lemma matches_id_js (t : script_tag) :
  matches_src_suffix (lit "id.js") t = true <->
  exists pre, src t = Some (pre ++ lit "id.js").
Proof.
  unfold matches_src_suffix. destruct (src t) as [s|].
  - change (lit "id.js") with (105 :: lit "d.js") at 1.
    cbv iota. change (105 :: lit "d.js") with (lit "id.js").
    rewrite ends_with_suffix. split.
    + intros [pre ->]. exists pre. reflexivity.
    + intros [pre H]. injection H as ->. exists pre. reflexivity.
  - split; [discriminate | intros [pre H]; discriminate].
Qed.

Lemma find_first {A} (f : A -> bool) (l : list A) (x : A) :
  find f l = Some x ->
  exists before after,
    l = before ++ x :: after /\
    forallb (fun y => negb (f y)) before = true /\
    f x = true.
Proof.
  induction l as [|a l IH]; simpl; [discriminate|].
  destruct (f a) eqn:Hfa.
  - intro H. injection H as <-. exists [], l. repeat split. exact Hfa.
  - intro H. destruct (IH H) as [before [after [-> [Hb Hx]]]].
    exists (a :: before), after. simpl. rewrite Hfa, Hb. repeat split.
    exact Hx.
Qed.

Lemma find_none_forallb {A} (f : A -> bool) (l : list A) :
  find f l = None -> forallb (fun y => negb (f y)) l = true.
Proof.
  induction l as [|a l IH]; simpl; [reflexivity|].
  destruct (f a); [discriminate|]. exact IH.
Qed.

(** X4: Inside its DOMContentLoaded listener, where [document.currentScript]
    is null, [src/Id.js] takes its configuration from the first script tag
    in document order whose [src] attribute ends, code unit for code unit,
    in [id.js]: [TARGET] is what [getAttribute('data-target')] answers on
    that tag.  With no such tag on the page [TARGET] is the empty string,
    whatever [data-target] attributes the page's script tags carry. *)
Theorem Id_js_TARGET_by_selector (tags : list script_tag) :
  (forallb (fun t => negb (matches_src_suffix (lit "id.js") t)) tags = true /\
   IdJs.resolve_TARGET (document_of None tags) = JString (lit "")) \/
  (exists before t after pre,
      tags = before ++ t :: after /\
      forallb (fun t' => negb (matches_src_suffix (lit "id.js") t')) before
      = true /\
      src t = Some (pre ++ lit "id.js") /\
      IdJs.resolve_TARGET (document_of None tags)
      = getAttribute_data_target (tag_element t)).
Proof.
  unfold IdJs.resolve_TARGET, document_of, querySelector_script_src_suffix.
  cbn [currentScript querySelector_script_id_js or_else].
  destruct (find (matches_src_suffix (lit "id.js")) tags) as [t|] eqn:Hfind.
  - right. destruct (find_first _ _ _ Hfind) as [before [after [Htags [Hb Ht]]]].
    apply matches_id_js in Ht. destruct Ht as [pre Hsrc].
    exists before, t, after, pre. repeat split; assumption.
  - left. split; [exact (find_none_forallb _ _ Hfind) | reflexivity].
Qed.

(** The file's own name differs from the selector's suffix in the case of
    its first letter: a page that loads it as [Id.js] gets the empty
    [TARGET], and with it a query-only destination. *)
Example Id_js_loaded_under_its_own_name :
  IdJs.resolve_TARGET
    (document_of None
       [mkTag (Some (lit "/static/Id.js"))
              (mkScript (Some (lit "https://example.com/welcome")))])
  = JString (lit "").
Proof. reflexivity. Qed.

Example Id_js_loaded_as_id_js :
  IdJs.resolve_TARGET
    (document_of None
       [mkTag (Some (lit "/static/jquery.js")) (mkScript None);
        mkTag (Some (lit "/static/id.js"))
              (mkScript (Some (lit "https://example.com/welcome")))])
  = JString (lit "https://example.com/welcome").
Proof. reflexivity. Qed.

(* ------------------------------------------------------------------ *)
(** ** Different values, different destinations *)

Lemma below_enum (P : Z -> bool) (n : nat) :
  forallb P (map Z.of_nat (seq 0 n)) = true ->
  forall y, 0 <= y < Z.of_nat n -> P y = true.
Proof.
  intros Hall y Hy. rewrite forallb_forall in Hall. apply Hall.
  rewrite <- (Z2Nat.id y) by lia. apply in_map, in_seq. lia.
Qed.

Lemma lor_128 (y : Z) : 0 <= y < 64 -> Z.lor 128 y = 128 + y.
Proof.
  intro Hy. apply Z.eqb_eq.
  apply (below_enum (fun y => Z.lor 128 y =? 128 + y) 64); [reflexivity | lia].
Qed.

Lemma lor_192 (y : Z) : 0 <= y < 32 -> Z.lor 192 y = 192 + y.
Proof.
  intro Hy. apply Z.eqb_eq.
  apply (below_enum (fun y => Z.lor 192 y =? 192 + y) 32); [reflexivity | lia].
Qed.

Lemma lor_224 (y : Z) : 0 <= y < 16 -> Z.lor 224 y = 224 + y.
Proof.
  intro Hy. apply Z.eqb_eq.
  apply (below_enum (fun y => Z.lor 224 y =? 224 + y) 16); [reflexivity | lia].
Qed.

Lemma lor_240 (y : Z) : 0 <= y < 8 -> Z.lor 240 y = 240 + y.
Proof.
  intro Hy. apply Z.eqb_eq.
  apply (below_enum (fun y => Z.lor 240 y =? 240 + y) 8); [reflexivity | lia].
Qed.

Lemma shiftr_div (x n : Z) : 0 <= n -> Z.shiftr x n = x / 2 ^ n.
Proof. intro Hn. apply Z.shiftr_div_pow2, Hn. Qed.

Lemma land_63 (x : Z) : Z.land x 63 = x mod 64.
Proof. change 63 with (Z.ones 6). rewrite Z.land_ones by lia. reflexivity. Qed.

Lemma land_15 (x : Z) : Z.land x 15 = x mod 16.
Proof. change 15 with (Z.ones 4). rewrite Z.land_ones by lia. reflexivity. Qed.


Lemma utf8_arith (cp : Z) : 0 <= cp < 0x110000 -> utf8 cp = utf8_octets cp.
Proof.
  intro Hcp. unfold utf8, utf8_octets.
  rewrite !land_63, !shiftr_div by lia.
  change (2 ^ 6) with 64. change (2 ^ 12) with 4096. change (2 ^ 18) with 262144.
  destruct (cp <? 128) eqn:H1; [reflexivity|]. apply Z.ltb_ge in H1.
  destruct (cp <? 2048) eqn:H2.
  { apply Z.ltb_lt in H2.
    rewrite lor_192, lor_128 by (Z.div_mod_to_equations; lia). reflexivity. }
  apply Z.ltb_ge in H2.
  destruct (cp <? 65536) eqn:H3.
  { apply Z.ltb_lt in H3.
    rewrite lor_224, !lor_128 by (Z.div_mod_to_equations; lia). reflexivity. }
  apply Z.ltb_ge in H3.
  rewrite lor_240, !lor_128 by (Z.div_mod_to_equations; lia). reflexivity.
Qed.

Lemma hex_digit_inj (a b : Z) :
  0 <= a < 16 -> 0 <= b < 16 -> hex_digit a = hex_digit b -> a = b.
Proof.
  intros Ha Hb H.
  pose proof (below_enum
    (fun a => forallb (fun b => implb (hex_digit a =? hex_digit b) (a =? b))
                      (map Z.of_nat (seq 0 16))) 16 eq_refl a Ha) as Hall.
  cbv beta in Hall.
  pose proof (below_enum _ 16 Hall b Hb) as Hab. cbv beta in Hab.
  rewrite H, Z.eqb_refl in Hab. apply Z.eqb_eq. exact Hab.
Qed.

Lemma percent_eq (o : Z) :
  percent o = [37; hex_digit (Z.shiftr o 4); hex_digit (Z.land o 15)].
Proof. reflexivity. Qed.

Lemma octet_inj (o1 o2 : Z) :
  0 <= o1 < 256 -> 0 <= o2 < 256 ->
  hex_digit (Z.shiftr o1 4) = hex_digit (Z.shiftr o2 4) ->
  hex_digit (Z.land o1 15) = hex_digit (Z.land o2 15) ->
  o1 = o2.
Proof.
  intros H1 H2. rewrite !land_15, !shiftr_div by lia. change (2 ^ 4) with 16.
  intros Hhi Hlo.
  apply hex_digit_inj in Hhi; [|Z.div_mod_to_equations; lia ..].
  apply hex_digit_inj in Hlo; [|Z.div_mod_to_equations; lia ..].
  Z.div_mod_to_equations; lia.
Qed.

Lemma percent_head (o1 o2 : Z) (t1 t2 : list Z) (r1 r2 : jsstring) :
  0 <= o1 < 256 -> 0 <= o2 < 256 ->
  flat_map percent (o1 :: t1) ++ r1 = flat_map percent (o2 :: t2) ++ r2 ->
  o1 = o2 /\ flat_map percent t1 ++ r1 = flat_map percent t2 ++ r2.
Proof.
  intros H1 H2. cbn [flat_map]. rewrite !percent_eq. cbn [app].
  intro H. injection H as Hhi Hlo Hrest.
  split; [exact (octet_inj o1 o2 H1 H2 Hhi Hlo) | exact Hrest].
Qed.

Ltac octet_range := Z.div_mod_to_equations; lia.

Ltac peel_octets H :=
  repeat (apply percent_head in H; [|octet_range|octet_range];
          let Ho := fresh "Ho" in destruct H as [Ho H]).

Lemma escape_prefix_free (cp1 cp2 : Z) (r1 r2 : jsstring) :
  0 <= cp1 < 0x110000 -> 0 <= cp2 < 0x110000 ->
  escape cp1 ++ r1 = escape cp2 ++ r2 ->
  cp1 = cp2 /\ r1 = r2.
Proof.
  intros H1 H2. unfold escape. rewrite !utf8_arith by assumption.
  unfold utf8_octets.
  destruct (cp1 <? 128) eqn:A1; [apply Z.ltb_lt in A1 | apply Z.ltb_ge in A1;
    destruct (cp1 <? 2048) eqn:B1; [apply Z.ltb_lt in B1 | apply Z.ltb_ge in B1;
      destruct (cp1 <? 65536) eqn:C1;
        [apply Z.ltb_lt in C1 | apply Z.ltb_ge in C1]]];
  (destruct (cp2 <? 128) eqn:A2; [apply Z.ltb_lt in A2 | apply Z.ltb_ge in A2;
    destruct (cp2 <? 2048) eqn:B2; [apply Z.ltb_lt in B2 | apply Z.ltb_ge in B2;
      destruct (cp2 <? 65536) eqn:C2;
        [apply Z.ltb_lt in C2 | apply Z.ltb_ge in C2]]]);
  intro H; peel_octets H;
  try (exfalso; octet_range);
  (split; [octet_range | exact H]).
Qed.


Lemma encodeURIComponent_first_token (c : code_unit) (rest e : jsstring) :
  encodeURIComponent (c :: rest) = Normal e -> first_token c rest e.
Proof.
  rewrite encodeURIComponent_cons.
  destruct (is_unescaped c) eqn:Hu.
  - destruct (encodeURIComponent rest) as [r|] eqn:Hr; [|discriminate].
    intro H. injection H as <-. exact (token_unescaped c rest _ r Hu Hr eq_refl).
  - destruct (is_high_surrogate c) eqn:Hh.
    + destruct rest as [|d rest']; [discriminate|].
      destruct (is_low_surrogate d) eqn:Hl; [|discriminate].
      destruct (encodeURIComponent rest') as [r|] eqn:Hr; [|discriminate].
      intro H. injection H as <-.
      exact (token_pair c _ _ d rest' r Hu Hh eq_refl Hl Hr eq_refl).
    + destruct (is_low_surrogate c) eqn:Hl; [discriminate|].
      destruct (encodeURIComponent rest) as [r|] eqn:Hr; [|discriminate].
      intro H. injection H as <-.
      exact (token_escaped c rest _ r Hu Hh Hl Hr eq_refl).
Qed.

Lemma escape_starts_with_percent (cp : Z) : exists tl, escape cp = 37 :: tl.
Proof.
  unfold escape, utf8.
  destruct (cp <? 128); [|destruct (cp <? 2048); [|destruct (cp <? 65536)]];
    cbn [flat_map]; rewrite percent_eq; cbn [app]; eexists; reflexivity.
Qed.

Lemma code_point_range (hi lo : code_unit) :
  is_high_surrogate hi = true -> is_low_surrogate lo = true ->
  0x10000 <= code_point hi lo < 0x110000.
Proof.
  unfold is_high_surrogate, is_low_surrogate, code_point.
  rewrite !andb_true_iff, !Z.leb_le. lia.
Qed.

Lemma code_point_inj (hi1 lo1 hi2 lo2 : code_unit) :
  is_high_surrogate hi1 = true -> is_low_surrogate lo1 = true ->
  is_high_surrogate hi2 = true -> is_low_surrogate lo2 = true ->
  code_point hi1 lo1 = code_point hi2 lo2 ->
  hi1 = hi2 /\ lo1 = lo2.
Proof.
  unfold is_high_surrogate, is_low_surrogate, code_point.
  rewrite !andb_true_iff, !Z.leb_le. lia.
Qed.

Lemma is_code_unit_range (c : code_unit) :
  is_code_unit c = true -> 0 <= c < 0x10000.
Proof.
  unfold is_code_unit. rewrite andb_true_iff, Z.leb_le, Z.ltb_lt. lia.
Qed.

(** [encodeURIComponent] is injective on strings of code units. *)
Lemma encodeURIComponent_injective (n : nat) :
  forall s1 s2 e,
    (List.length s1 <= n)%nat ->
    forallb is_code_unit s1 = true ->
    forallb is_code_unit s2 = true ->
    encodeURIComponent s1 = Normal e ->
    encodeURIComponent s2 = Normal e ->
    s1 = s2.
Proof.
  induction n as [|n IH]; intros s1 s2 e Hlen Hu1 Hu2 He1 He2.
  - destruct s1 as [|c1 rest1]; [|simpl in Hlen; lia].
    injection He1 as <-.
    destruct s2 as [|c2 rest2]; [reflexivity|].
    destruct (encodeURIComponent_first_token _ _ _ He2) as [r _ _ H|d t r _ _ _ _ _ H|r _ _ _ _ H].
    + discriminate.
    + destruct (escape_starts_with_percent (code_point c2 d)) as [tl Htl].
      rewrite Htl in H. discriminate.
    + destruct (escape_starts_with_percent c2) as [tl Htl].
      rewrite Htl in H. discriminate.
  - destruct s1 as [|c1 rest1].
    { apply (IH [] s2 e); simpl; try assumption; lia. }
    destruct s2 as [|c2 rest2].
    { symmetry. apply (IH [] (c1 :: rest1) e); simpl; try assumption; lia. }
    simpl in Hlen. simpl in Hu1, Hu2.
    apply andb_true_iff in Hu1. destruct Hu1 as [Hc1 Hu1].
    apply andb_true_iff in Hu2. destruct Hu2 as [Hc2 Hu2].
    apply is_code_unit_range in Hc1. apply is_code_unit_range in Hc2.
    destruct (encodeURIComponent_first_token _ _ _ He1)
      as [r1 U1 R1 E1|d1 t1 r1 U1 Hh1 -> Hl1 R1 E1|r1 U1 Hh1 Hl1 R1 E1];
    destruct (encodeURIComponent_first_token _ _ _ He2)
      as [r2 U2 R2 E2|d2 t2 r2 U2 Hh2 -> Hl2 R2 E2|r2 U2 Hh2 Hl2 R2 E2];
    subst e.
    + injection E2 as -> ->. f_equal.
      apply (IH rest1 rest2 r2); try assumption; lia.
    + destruct (escape_starts_with_percent (code_point c2 d2)) as [tl Htl].
      rewrite Htl in E2. injection E2 as -> _. discriminate U1.
    + destruct (escape_starts_with_percent c2) as [tl Htl].
      rewrite Htl in E2. injection E2 as -> _. discriminate U1.
    + destruct (escape_starts_with_percent (code_point c1 d1)) as [tl Htl].
      rewrite Htl in E2. injection E2 as <- _. discriminate U2.
    + apply escape_prefix_free in E2;
        [|pose proof (code_point_range _ _ Hh1 Hl1);
          pose proof (code_point_range _ _ Hh2 Hl2); lia ..].
      destruct E2 as [Hcp ->].
      destruct (code_point_inj _ _ _ _ Hh1 Hl1 Hh2 Hl2 Hcp) as [-> ->].
      simpl in Hu1, Hu2.
      apply andb_true_iff in Hu1. destruct Hu1 as [_ Hu1].
      apply andb_true_iff in Hu2. destruct Hu2 as [_ Hu2].
      do 2 f_equal. apply (IH t1 t2 r2); try assumption. simpl in Hlen. lia.
    + apply escape_prefix_free in E2;
        [|pose proof (code_point_range _ _ Hh1 Hl1); lia ..].
      destruct E2 as [Hcp _].
      pose proof (code_point_range _ _ Hh1 Hl1). lia.
    + destruct (escape_starts_with_percent c1) as [tl Htl].
      rewrite Htl in E2. injection E2 as <- _. discriminate U2.
    + apply escape_prefix_free in E2;
        [|pose proof (code_point_range _ _ Hh2 Hl2); lia ..].
      destruct E2 as [Hcp _].
      pose proof (code_point_range _ _ Hh2 Hl2). lia.
    + apply escape_prefix_free in E2; [|lia ..].
      destruct E2 as [-> ->]. f_equal.
      apply (IH rest1 rest2 r2); try assumption; lia.
Qed.

(** X12: The destination tells the value: for one target, two fields of 16-bit
    code units whose continue clicks complete with the same destination
    hold the same text, so no two identifiers collide in the parameter. *)
Theorem destination_determines_value (v : variant) (st1 st2 : page)
        (T : jsstring) :
  TARGET st1 = JString T ->
  TARGET st2 = JString T ->
  forallb is_code_unit (didInput_value st1) = true ->
  forallb is_code_unit (didInput_value st2) = true ->
  completion_of (contBtn_click v st1) = Normal tt ->
  completion_of (contBtn_click v st2) = Normal tt ->
  location_href (page_after (contBtn_click v st1))
  = location_href (page_after (contBtn_click v st2)) ->
  didInput_value st1 = didInput_value st2.
Proof.
  intros HT1 HT2 Hu1 Hu2 Hd1 Hd2 Hsame.
  destruct (contBtn_click_completed v st1 T HT1 Hd1) as [e1 [He1 Hh1]].
  destruct (contBtn_click_completed v st2 T HT2 Hd2) as [e2 [He2 Hh2]].
  rewrite Hh1, Hh2 in Hsame. injection Hsame as Hsame.
  do 2 apply app_inv_head in Hsame.
  apply (app_inv_head (lit "discord_id=")) in Hsame. subst e2.
  exact (encodeURIComponent_injective _ _ _ e1 (le_n _) Hu1 Hu2 He1 He2).
Qed.

Lemma destination_determines_value_witness :
  (TARGET welcome_page = JString (lit "https://example.com/welcome") /\
   TARGET (page_with (JString (lit "https://example.com/welcome")) (lit "12345"))
   = JString (lit "https://example.com/welcome") /\
   forallb is_code_unit (didInput_value welcome_page) = true /\
   forallb is_code_unit
     (didInput_value
        (page_with (JString (lit "https://example.com/welcome")) (lit "12345")))
   = true /\
   completion_of (contBtn_click Id_js welcome_page) = Normal tt /\
   completion_of
     (contBtn_click Id_js
        (page_with (JString (lit "https://example.com/welcome")) (lit "12345")))
   = Normal tt /\
   location_href (page_after (contBtn_click Id_js welcome_page))
   = location_href
       (page_after
          (contBtn_click Id_js
             (page_with (JString (lit "https://example.com/welcome"))
                        (lit "12345"))))) /\
  didInput_value welcome_page
  = didInput_value
      (page_with (JString (lit "https://example.com/welcome")) (lit "12345")).
Proof.
  split; [repeat split; reflexivity|].
  apply (destination_determines_value Id_js welcome_page
           (page_with (JString (lit "https://example.com/welcome")) (lit "12345"))
           (lit "https://example.com/welcome")); reflexivity.
Defined.

(* ------------------------------------------------------------------ *)
(** ** The encoder against the standards *)

(** The unescaped set of the encoder is the set of unreserved characters. *)
Lemma uri_unescaped_is_ascii (c : Z) :
  uri_unescaped c = true -> 0 <= c < 128.
Proof.
  unfold uri_unescaped. intro H.
  destruct (existsb (Z.eqb c) (lit "-_.!~*'()")) eqn:Hm.
  - apply existsb_exists in Hm. destruct Hm as [x [Hin Hx]].
    apply Z.eqb_eq in Hx. subst x.
    assert (Hall : forallb (fun x => (0 <=? x) && (x <? 128)) (lit "-_.!~*'()")
                   = true) by reflexivity.
    rewrite forallb_forall in Hall. specialize (Hall c Hin).
    apply andb_true_iff in Hall. destruct Hall as [H0 H1].
    apply Z.leb_le in H0. apply Z.ltb_lt in H1. lia.
  - rewrite orb_false_r in H.
    destruct (Z.leb_spec 48 c), (Z.leb_spec c 57), (Z.leb_spec 65 c),
      (Z.leb_spec c 90), (Z.leb_spec 97 c), (Z.leb_spec c 122);
      simpl in H; try discriminate; lia.
Qed.

Lemma is_unescaped_unreserved (c : Z) : is_unescaped c = uri_unescaped c.
Proof.
  destruct (Z_lt_ge_dec c 0) as [Hneg|Hpos];
    [|destruct (Z_lt_ge_dec c 128) as [Hlow|Hhigh]].
  - destruct (is_unescaped c) eqn:Hu;
      [apply unescaped_is_ascii in Hu; lia|].
    destruct (uri_unescaped c) eqn:Hr; [|reflexivity].
    apply uri_unescaped_is_ascii in Hr. lia.
  - apply eqb_prop.
    apply (below_enum (fun c => eqb (is_unescaped c) (uri_unescaped c)) 128);
      [reflexivity | lia].
  - destruct (is_unescaped c) eqn:Hu;
      [apply unescaped_is_ascii in Hu; lia|].
    destruct (uri_unescaped c) eqn:Hr; [|reflexivity].
    apply uri_unescaped_is_ascii in Hr. lia.
Qed.

Lemma hex_digit_HEXDIG (d : Z) : 0 <= d < 16 -> hex_digit d = HEXDIG d.
Proof.
  intro Hd. apply Z.eqb_eq.
  apply (below_enum (fun d => hex_digit d =? HEXDIG d) 16); [reflexivity | lia].
Qed.

Lemma percent_pct_encoded (o : Z) : 0 <= o < 256 -> percent o = pct_encoded o.
Proof.
  intro Ho. rewrite percent_eq. unfold pct_encoded.
  rewrite land_15, shiftr_div by lia. change (2 ^ 4) with 16.
  rewrite !hex_digit_HEXDIG by (Z.div_mod_to_equations; lia). reflexivity.
Qed.

Lemma utf8_octets_range (u : Z) :
  0 <= u < 0x110000 -> Forall (fun o => 0 <= o < 256) (utf8_octets u).
Proof.
  intro Hu. unfold utf8_octets.
  destruct (u <? 128) eqn:H1; [apply Z.ltb_lt in H1 | apply Z.ltb_ge in H1;
    destruct (u <? 2048) eqn:H2; [apply Z.ltb_lt in H2 | apply Z.ltb_ge in H2;
      destruct (u <? 65536) eqn:H3;
        [apply Z.ltb_lt in H3 | apply Z.ltb_ge in H3]]];
  repeat (apply Forall_cons; [Z.div_mod_to_equations; lia|]); apply Forall_nil.
Qed.

Lemma flat_map_percent (os : list Z) :
  Forall (fun o => 0 <= o < 256) os ->
  flat_map percent os = flat_map pct_encoded os.
Proof.
  induction 1 as [|o os Ho _ IH]; [reflexivity|].
  cbn [flat_map]. rewrite IH, (percent_pct_encoded o Ho). reflexivity.
Qed.

(** The encoder's escape is the standards' one. *)
Lemma escape_pct (u : Z) :
  0 <= u < 0x110000 -> escape u = flat_map pct_encoded (utf8_octets u).
Proof.
  intro Hu. unfold escape. rewrite (utf8_arith u Hu).
  apply flat_map_percent, utf8_octets_range, Hu.
Qed.

Lemma pct_char_escaped (u : Z) :
  0 <= u < 0x110000 -> is_unescaped u = false -> pct_char u = escape u.
Proof.
  intros Hu Hesc. unfold pct_char.
  rewrite <- is_unescaped_unreserved, Hesc. symmetry. apply escape_pct, Hu.
Qed.

Lemma Some_eq {A} (x y : A) : Some x = Some y -> x = y.
Proof. intro H. injection H as H. exact H. Qed.

Lemma pct_char_unescaped (u : Z) : is_unescaped u = true -> pct_char u = [u].
Proof.
  intro Hu. unfold pct_char. rewrite <- is_unescaped_unreserved, Hu.
  reflexivity.
Qed.

(** On every well-formed string [encodeURIComponent] returns the
    percent-encoding of its characters. *)
Lemma encodeURIComponent_pct (s : jsstring) :
  forall us,
    utf16_scalars s = Some us ->
    encodeURIComponent s = Normal (flat_map pct_char us).
Proof.
  induction s as [|c|c d s IH1 IH2] using jsstring_pair_ind; intros us Hus.
  - apply Some_eq in Hus. subst us. reflexivity.
  - cbn [utf16_scalars] in Hus. rewrite encodeURIComponent_cons.
    destruct (((0 <=? c) && (c <? 0xD800)) || ((0xE000 <=? c) && (c <? 0x10000)))
      eqn:Hbmp.
    + apply Some_eq in Hus. subst us.
      assert (Hc : 0 <= c < 0xD800 \/ 0xE000 <= c < 0x10000).
      { apply orb_true_iff in Hbmp.
        destruct Hbmp as [H|H]; apply andb_true_iff in H; destruct H as [Ha Hb];
          apply Z.leb_le in Ha; apply Z.ltb_lt in Hb; lia. }
      cbn [flat_map]. rewrite app_nil_r.
      destruct (is_unescaped c) eqn:Hu.
      * rewrite (pct_char_unescaped c Hu). reflexivity.
      * assert (Hh : is_high_surrogate c = false).
        { unfold is_high_surrogate. apply andb_false_iff.
          destruct Hc; [left | right]; apply Z.leb_gt; lia. }
        assert (Hl : is_low_surrogate c = false).
        { unfold is_low_surrogate. apply andb_false_iff.
          destruct Hc; [left | right]; apply Z.leb_gt; lia. }
        rewrite Hh, Hl. cbn [cbind encodeURIComponent].
        rewrite app_nil_r, pct_char_escaped by (assumption || lia). reflexivity.
    + destruct ((0xD800 <=? c) && (c <? 0xDC00)); discriminate.
  - rewrite encodeURIComponent_cons.
    change (utf16_scalars (c :: d :: s)) with
      (if ((0 <=? c) && (c <? 0xD800)) || ((0xE000 <=? c) && (c <? 0x10000))
       then option_map (cons c) (utf16_scalars (d :: s))
       else if (0xD800 <=? c) && (c <? 0xDC00) then
         if (0xDC00 <=? d) && (d <? 0xE000) then
           option_map (cons (0x10000 + (c - 0xD800) * 0x400 + (d - 0xDC00)))
                      (utf16_scalars s)
         else None
       else None) in Hus.
    destruct (((0 <=? c) && (c <? 0xD800)) || ((0xE000 <=? c) && (c <? 0x10000)))
      eqn:Hbmp.
    + destruct (utf16_scalars (d :: s)) as [us'|] eqn:Hrest; [|discriminate].
      apply Some_eq in Hus. subst us.
      assert (Hc : 0 <= c < 0xD800 \/ 0xE000 <= c < 0x10000).
      { apply orb_true_iff in Hbmp.
        destruct Hbmp as [H|H]; apply andb_true_iff in H; destruct H as [Ha Hb];
          apply Z.leb_le in Ha; apply Z.ltb_lt in Hb; lia. }
      rewrite (IH2 us' eq_refl). cbn [flat_map cbind].
      destruct (is_unescaped c) eqn:Hu.
      * rewrite (pct_char_unescaped c Hu). reflexivity.
      * assert (Hh : is_high_surrogate c = false).
        { unfold is_high_surrogate. apply andb_false_iff.
          destruct Hc; [left | right]; apply Z.leb_gt; lia. }
        assert (Hl : is_low_surrogate c = false).
        { unfold is_low_surrogate. apply andb_false_iff.
          destruct Hc; [left | right]; apply Z.leb_gt; lia. }
        rewrite Hh, Hl, pct_char_escaped by (assumption || lia). reflexivity.
    + destruct ((0xD800 <=? c) && (c <? 0xDC00)) eqn:Hhi; [|discriminate].
      destruct ((0xDC00 <=? d) && (d <? 0xE000)) eqn:Hlo; [|discriminate].
      destruct (utf16_scalars s) as [us'|] eqn:Hrest; [|discriminate].
      apply Some_eq in Hus. subst us.
      apply andb_true_iff in Hhi. destruct Hhi as [Hh1 Hh2].
      apply Z.leb_le in Hh1. apply Z.ltb_lt in Hh2.
      apply andb_true_iff in Hlo. destruct Hlo as [Hl1 Hl2].
      apply Z.leb_le in Hl1. apply Z.ltb_lt in Hl2.
      assert (Hu : is_unescaped c = false).
      { destruct (is_unescaped c) eqn:Hu; [|reflexivity].
        apply unescaped_is_ascii in Hu. lia. }
      assert (Hh : is_high_surrogate c = true).
      { unfold is_high_surrogate. apply andb_true_iff.
        split; apply Z.leb_le; lia. }
      assert (Hl : is_low_surrogate d = true).
      { unfold is_low_surrogate. apply andb_true_iff.
        split; apply Z.leb_le; lia. }
      rewrite Hu, Hh, Hl, (IH1 us' eq_refl). cbn [flat_map cbind].
      assert (Hcp : code_point c d
                    = 0x10000 + (c - 0xD800) * 0x400 + (d - 0xDC00))
        by (unfold code_point; lia).
      rewrite Hcp.
      rewrite pct_char_escaped; [reflexivity | lia |].
      destruct (is_unescaped (0x10000 + (c - 0xD800) * 0x400 + (d - 0xDC00)))
        eqn:Hu'; [|reflexivity].
      apply unescaped_is_ascii in Hu'. lia.
Qed.

(** The scalar values of a well-formed string are Unicode scalar values. *)
Lemma utf16_scalars_range (s : jsstring) :
  forall us,
    utf16_scalars s = Some us ->
    Forall (fun u => 0 <= u < 0x110000) us.
Proof.
  induction s as [|c|c d s IH1 IH2] using jsstring_pair_ind; intros us Hus.
  - apply Some_eq in Hus. subst us. apply Forall_nil.
  - cbn [utf16_scalars] in Hus.
    destruct (((0 <=? c) && (c <? 0xD800)) || ((0xE000 <=? c) && (c <? 0x10000)))
      eqn:Hbmp.
    + apply Some_eq in Hus. subst us.
      apply Forall_cons; [|apply Forall_nil].
      apply orb_true_iff in Hbmp.
      destruct Hbmp as [H|H]; apply andb_true_iff in H; destruct H as [Ha Hb];
        apply Z.leb_le in Ha; apply Z.ltb_lt in Hb; lia.
    + destruct ((0xD800 <=? c) && (c <? 0xDC00)); discriminate.
  - change (utf16_scalars (c :: d :: s)) with
      (if ((0 <=? c) && (c <? 0xD800)) || ((0xE000 <=? c) && (c <? 0x10000))
       then option_map (cons c) (utf16_scalars (d :: s))
       else if (0xD800 <=? c) && (c <? 0xDC00) then
         if (0xDC00 <=? d) && (d <? 0xE000) then
           option_map (cons (0x10000 + (c - 0xD800) * 0x400 + (d - 0xDC00)))
                      (utf16_scalars s)
         else None
       else None) in Hus.
    destruct (((0 <=? c) && (c <? 0xD800)) || ((0xE000 <=? c) && (c <? 0x10000)))
      eqn:Hbmp.
    + destruct (utf16_scalars (d :: s)) as [us'|] eqn:Hrest; [|discriminate].
      apply Some_eq in Hus. subst us.
      apply Forall_cons; [|exact (IH2 us' eq_refl)].
      apply orb_true_iff in Hbmp.
      destruct Hbmp as [H|H]; apply andb_true_iff in H; destruct H as [Ha Hb];
        apply Z.leb_le in Ha; apply Z.ltb_lt in Hb; lia.
    + destruct ((0xD800 <=? c) && (c <? 0xDC00)) eqn:Hhi; [|discriminate].
      destruct ((0xDC00 <=? d) && (d <? 0xE000)) eqn:Hlo; [|discriminate].
      destruct (utf16_scalars s) as [us'|] eqn:Hrest; [|discriminate].
      apply Some_eq in Hus. subst us.
      apply Forall_cons; [|exact (IH1 us' eq_refl)].
      apply andb_true_iff in Hhi. destruct Hhi as [Hh1 Hh2].
      apply Z.leb_le in Hh1. apply Z.ltb_lt in Hh2.
      apply andb_true_iff in Hlo. destruct Hlo as [Hl1 Hl2].
      apply Z.leb_le in Hl1. apply Z.ltb_lt in Hl2. lia.
Qed.

Lemma unHEXDIG_HEXDIG (d : Z) : 0 <= d < 16 -> unHEXDIG (HEXDIG d) = Some d.
Proof.
  intro Hd.
  pose proof (below_enum
    (fun d => match unHEXDIG (HEXDIG d) with
              | Some x => x =? d
              | None => false
              end) 16 eq_refl d Hd) as H.
  cbv beta in H. destruct (unHEXDIG (HEXDIG d)) as [x|]; [|discriminate].
  apply Z.eqb_eq in H. subst x. reflexivity.
Qed.

Lemma pct_octets_encoded (os : list Z) :
  Forall (fun o => 0 <= o < 256) os ->
  pct_octets (flat_map pct_encoded os) = Some os.
Proof.
  induction 1 as [|o os Ho _ IH]; [reflexivity|].
  cbn [flat_map pct_encoded app pct_octets].
  rewrite Z.eqb_refl, !unHEXDIG_HEXDIG, IH by (Z.div_mod_to_equations; lia).
  do 2 f_equal. Z.div_mod_to_equations; lia.
Qed.

Lemma utf8_scalar_octets (u : Z) :
  0 <= u < 0x110000 -> utf8_scalar (utf8_octets u) = Some u.
Proof.
  intro Hu. unfold utf8_octets.
  destruct (u <? 128) eqn:H1; [apply Z.ltb_lt in H1 | apply Z.ltb_ge in H1;
    destruct (u <? 2048) eqn:H2; [apply Z.ltb_lt in H2 | apply Z.ltb_ge in H2;
      destruct (u <? 65536) eqn:H3;
        [apply Z.ltb_lt in H3 | apply Z.ltb_ge in H3]]];
  unfold utf8_scalar, is_continuation;
  repeat match goal with
         | |- context [?a <=? ?b] =>
             let H := fresh in
             assert (H : (a <=? b) = true)
               by (apply Z.leb_le; Z.div_mod_to_equations; lia);
             rewrite H; clear H
         | |- context [?a <? ?b] =>
             let H := fresh in
             assert (H : (a <? b) = true)
               by (apply Z.ltb_lt; Z.div_mod_to_equations; lia);
             rewrite H; clear H
         end;
  cbn [andb]; f_equal; Z.div_mod_to_equations; lia.
Qed.

(** An escaped character decodes back to itself. *)
Lemma pct_decode_char_pct_char (u : Z) :
  0 <= u < 0x110000 ->
  uri_unescaped u = false ->
  pct_decode_char (pct_char u) = Some u.
Proof.
  intros Hu Hesc. unfold pct_decode_char, pct_char. rewrite Hesc.
  rewrite (pct_octets_encoded _ (utf8_octets_range u Hu)).
  apply utf8_scalar_octets, Hu.
Qed.

(** C6: for every field value that is well-formed UTF-16, the destination
    the continue handler computes carries, after [discord_id=], the
    percent-encoding of the value character by character: an unreserved
    character as it is, and every character that requires encoding (a
    space, [&], [#], an accented letter, a character outside the BMP held
    as a surrogate pair) as the escapes [%XX], upper-case, of the octets
    of its UTF-8 form, in its place.  Each such escape consists of [%] and
    hexadecimal digits only and decodes back to the character. *)
Theorem destination_escapes (v : variant) (st : page) (T : jsstring)
        (us : list Z) :
  TARGET st = JString T ->
  utf16_scalars (didInput_value st) = Some us ->
  contBtn_click v st =
    (Normal tt,
     navigated (T ++ separator T ++ lit "discord_id=" ++ flat_map pct_char us) st,
     []) /\
  (forall u,
      In u us ->
      uri_unescaped u = false ->
      pct_char u = flat_map pct_encoded (utf8_octets u) /\
      Forall is_escape_unit (pct_char u) /\
      pct_decode_char (pct_char u) = Some u) /\
  pct_char 32 = lit "%20" /\ pct_char 38 = lit "%26" /\
  pct_char 35 = lit "%23" /\ pct_char 0xE9 = lit "%C3%A9" /\
  pct_char 0x20AC = lit "%E2%82%AC" /\ pct_char 0x1F600 = lit "%F0%9F%98%80".
Proof.
  intros HT Hus.
  split; [|split; [|repeat split]].
  - rewrite (contBtn_click_string v st T HT).
    rewrite (encodeURIComponent_pct _ us Hus). reflexivity.
  - intros u Hin Hesc.
    assert (Hu : 0 <= u < 0x110000)
      by exact (proj1 (Forall_forall _ _) (utf16_scalars_range _ us Hus) u Hin).
    split; [unfold pct_char; rewrite Hesc; reflexivity|].
    split; [|exact (pct_decode_char_pct_char u Hu Hesc)].
    rewrite pct_char_escaped;
      [apply escape_units | exact Hu
       | rewrite is_unescaped_unreserved; exact Hesc].
Qed.

Lemma destination_escapes_witness :
  (TARGET accents_page = JString (lit "https://example.com/welcome") /\
   utf16_scalars (didInput_value accents_page)
   = Some [97; 32; 98; 38; 99; 35; 100; 0xE9; 0x20AC; 0x1F600]) /\
  contBtn_click Id_js accents_page =
    (Normal tt,
     navigated
       (lit "https://example.com/welcome"
          ++ separator (lit "https://example.com/welcome")
          ++ lit "discord_id="
          ++ flat_map pct_char
               [97; 32; 98; 38; 99; 35; 100; 0xE9; 0x20AC; 0x1F600])
       accents_page,
     []) /\
  (forall u,
      In u [97; 32; 98; 38; 99; 35; 100; 0xE9; 0x20AC; 0x1F600] ->
      uri_unescaped u = false ->
      pct_char u = flat_map pct_encoded (utf8_octets u) /\
      Forall is_escape_unit (pct_char u) /\
      pct_decode_char (pct_char u) = Some u) /\
  pct_char 32 = lit "%20" /\ pct_char 38 = lit "%26" /\
  pct_char 35 = lit "%23" /\ pct_char 0xE9 = lit "%C3%A9" /\
  pct_char 0x20AC = lit "%E2%82%AC" /\ pct_char 0x1F600 = lit "%F0%9F%98%80".
Proof.
  split; [split; reflexivity|].
  apply (destination_escapes Id_js accents_page
           (lit "https://example.com/welcome")
           [97; 32; 98; 38; 99; 35; 100; 0xE9; 0x20AC; 0x1F600]);
    reflexivity.
Defined.

Example destination_accents :
  location_href (page_after (contBtn_click Part_000 accents_page))
  = Some (lit "https://example.com/welcome?discord_id=a%20b%26c%23d%C3%A9%E2%82%AC%F0%9F%98%80").
Proof. reflexivity. Qed.
